(** * Brasschaat villa planner: the financial calculation engine

    A shallow embedding of the pure-function layer of the planner
    (lib/finance.ts, lib/advisor.ts, lib/sensitivity.ts and the
    affordability banner of components/SummaryCards.tsx), with the
    properties of the engine stated and proved over it.

    Numbers.  A JavaScript [number] is a binary64 float.

    - finance.ts is modelled twice.  [Finance] takes money and rates as
      exact rationals ([Q], compared with [==]), with [Math.pow] the exact
      power and [Math.round] the exact [floor (x + 1/2)]: it shows which
      expression the code evaluates and what the schedule is when nothing
      but the printed fields is rounded.  [Doubles] is the same code on
      binary64 floats ([PrimFloat]), the arithmetic the program really
      runs on; what depends on the values that the program computes is
      settled there.  Loan terms are whole years ([Z]), as the input
      record describes them.
    - advisor.ts is modelled on [Q], with the payment of a scenario that
      of [Finance]; what is stated about it is how its tiers and texts
      are chosen from the fields of a summary and of the scenarios.
    - The two [for] loops of sensitivity.ts only add and compare.  The
      grid generator is written once over an interface of number
      operations and instantiated twice: with exact rationals, and with
      binary64 floats.

    Loops.  The counted loop of [buildAmort] is a recursion on the number
    of turns left.  The loops of the grid generator end only when their
    variable passes the upper bound, so they take fuel and return [None]
    when it runs out.

    Texts.  Of the texts that advisor.ts composes, the summary sentences
    and the recommendations are modelled by the template that is chosen
    and the values it prints; the full report is not modelled.

    Storage.  lib/storage.ts is modelled by passing the two keys of
    [localStorage] that it uses through every call; generated ids and
    timestamps are arguments. *)

From Stdlib Require Import List ZArith QArith Qround Qabs Qminmax Qpower Qfield.
From Stdlib Require Import Bool Lia Lqa Sorted String.
From Stdlib Require Import Floats.PrimFloat Floats.FloatOps Floats.SpecFloat.
From Stdlib Require Uint63.
Import ListNotations.

Local Open Scope Q_scope.

(* ================================================================== *)
(** * lib/finance.ts *)
(* ================================================================== *)

Module Finance.

(** [x < y] on numbers, as a boolean. *)
Definition Qlt_bool (x y : Q) : bool := negb (Qle_bool y x).

(** [Math.round]: the nearest integer, halves towards plus infinity. *)
Definition Math_round (x : Q) : Z := Qfloor (x + (1 # 2)).

(** [round2 = (n) => Math.round(n * 100) / 100]. *)
Definition round2 (n : Q) : Q := inject_Z (Math_round (n * 100)) / 100.

Record FinancialInputs : Type := {
  purchasePrice : Q;
  registrationRatePct : Q;
  notaryFees : Q;
  renovationBudget : Q;
  contingencyPct : Q;
  ownCash : Q;
  cryptoNet : Q;
  familyLoanAmount : Q;
  familyLoanRatePct : Q;
  familyLoanTermYears : Z;
  bankLoanAmount : Q;
  bankRatePct : Q;
  bankTermYears : Z;
  netIncomeMonthly : Q;
  otherFixedCostsMonthly : Q;
  airbnbIncome : Q;
  useAirbnbIncome : bool;
  businessUsePct : Q;
  projectName : string;
  reportNotes : string
}.

Record AmortizationRow : Type := {
  month : Z;
  payment : Q;
  interest : Q;
  principal : Q;
  balance : Q
}.

Record Summary : Type := {
  regTax : Q;
  renoWithCont : Q;
  totalProject : Q;
  totalSources : Q;
  fundingGap : Q;
  bankMonthly : Q;
  familyMonthly : Q;
  totalDebt : Q;
  dtiPct : Q;
  netAfter : Q
}.

(** [pmt(rateAnnual, years, principal)]: the monthly payment. *)
Definition pmt (rateAnnual : Q) (years : Z) (principal : Q) : Q :=
  let m := (years * 12)%Z in
  let r := rateAnnual / 12 in
  if Qle_bool principal 0 || (years <=? 0)%Z then 0
  else if Qle_bool rateAnnual 0 then principal / inject_Z m
  else (principal * (r * (1 + r) ^ m)) / ((1 + r) ^ m - 1).

(** The body of the [for] loop of [buildAmort], run [n] more times from
    month [i] with running balance [bal].  [Qred] writes the new balance
    in lowest terms; it does not change its value and keeps the fractions
    small enough to evaluate a schedule. *)
Fixpoint amortLoop (n : nat) (i : Z) (pay r bal : Q) : list AmortizationRow :=
  match n with
  | O => []
  | S n' =>
      let interest := bal * r in
      let princ := Qmin (pay - interest) bal in
      let bal' := Qred (Qmax 0 (bal - princ)) in
      {| month := i;
         payment := round2 pay;
         interest := round2 interest;
         principal := round2 princ;
         balance := round2 bal' |}
      :: amortLoop n' (i + 1)%Z pay r bal'
  end.

(** [buildAmort(principal, rateAnnual, years)].  The loop
    [for (let i = 1; i <= m; i++)] runs [m] times when [m] is positive and
    not at all otherwise, which is [Z.to_nat m] times. *)
Definition buildAmort (principal rateAnnual : Q) (years : Z)
  : list AmortizationRow :=
  let m := (years * 12)%Z in
  let pay := pmt rateAnnual years principal in
  let r := rateAnnual / 12 in
  amortLoop (Z.to_nat m) 1%Z pay r principal.

(** [calculateSummary(inputs)]. *)
Definition calculateSummary (inputs : FinancialInputs) : Summary :=
  let regTax := purchasePrice inputs * (registrationRatePct inputs / 100) in
  let renoWithCont :=
    renovationBudget inputs * (1 + contingencyPct inputs / 100) in
  let totalProject :=
    purchasePrice inputs + regTax + notaryFees inputs + renoWithCont in
  let totalSources :=
    ownCash inputs + cryptoNet inputs + familyLoanAmount inputs
    + bankLoanAmount inputs in
  let fundingGap := round2 (totalProject - totalSources) in
  let bankMonthly :=
    pmt (bankRatePct inputs / 100) (bankTermYears inputs)
        (bankLoanAmount inputs) in
  let familyMonthly :=
    pmt (familyLoanRatePct inputs / 100) (familyLoanTermYears inputs)
        (familyLoanAmount inputs) in
  let totalDebt := bankMonthly + familyMonthly in
  let airbnb := if useAirbnbIncome inputs then airbnbIncome inputs else 0 in
  let netAfter :=
    netIncomeMonthly inputs - otherFixedCostsMonthly inputs + airbnb
    - totalDebt in
  let dtiPct :=
    if Qlt_bool 0 (netIncomeMonthly inputs)
    then (totalDebt / netIncomeMonthly inputs) * 100 else 0 in
  {| regTax := round2 regTax;
     renoWithCont := round2 renoWithCont;
     totalProject := round2 totalProject;
     totalSources := round2 totalSources;
     fundingGap := fundingGap;
     bankMonthly := round2 bankMonthly;
     familyMonthly := round2 familyMonthly;
     totalDebt := round2 totalDebt;
     dtiPct := round2 dtiPct;
     netAfter := round2 netAfter |}.

(** The [reduce] of [getAmortTotals] over the principal column, before its
    final rounding. *)
Definition totalPrincipal (rows : list AmortizationRow) : Q :=
  fold_left (fun sum row => sum + principal row) rows 0.

End Finance.

(* ================================================================== *)
(** * components/SummaryCards.tsx: the affordability banner *)
(* ================================================================== *)

Module Cards.
Import Finance.

Inductive Affordability : Type := GOOD | WARN | BAD.

Definition isFundingGapBad (s : Summary) : bool := Qlt_bool 0 (fundingGap s).
Definition isDTIAmber (s : Summary) : bool := Qlt_bool 45 (dtiPct s).
Definition isDTIRed (s : Summary) : bool := Qlt_bool 55 (dtiPct s).
Definition isNetAfterBad (s : Summary) : bool := Qlt_bool (netAfter s) 0.

Definition hasIssues (s : Summary) : bool :=
  isFundingGapBad s || isDTIRed s || isNetAfterBad s.
Definition needsAttention (s : Summary) : bool :=
  negb (hasIssues s) && isDTIAmber s.
Definition looksGood (s : Summary) : bool :=
  negb (hasIssues s) && negb (needsAttention s).

(** The banner picks its colour with
    [hasIssues ? red : needsAttention ? yellow : green]. *)
Definition affordability (s : Summary) : Affordability :=
  if hasIssues s then BAD
  else if needsAttention s then WARN
  else GOOD.

End Cards.

(* ================================================================== *)
(** * lib/advisor.ts *)
(* ================================================================== *)

Module Advisor.
Import Finance.

Inductive Risk : Type := Laag | Gemiddeld | Hoog.
Inductive RiskColor : Type := green | yellow | red.

(** The four headlines [assessOverallRisk] can return.  The first carries
    the rounded shortfall that the text prints; its locale formatting is
    not modelled. *)
Inductive RiskLevel : Type :=
  | HoogRisicoTekort (gap : Z)
  | HoogRisicoDTI
  | GemiddeldRisico
  | LaagRisico.

Record ScenarioAnalysis : Type := {
  name : string;
  rate : Q;
  incomeDelta : Z;
  bankMonthly : Q;
  familyMonthly : Q;
  totalDebt : Q;
  dtiPct : Q;
  monthlyNet : Q;
  risk : Risk
}.

(** The numeric part of [AIAnalysis]; the three generated texts are left
    out. *)
Record AIAnalysis : Type := {
  riskLevel : RiskLevel;
  riskColor : RiskColor;
  scenarios : list ScenarioAnalysis
}.

Definition calculateScenario (name : string) (bankRate : Q) (incomeDelta : Z)
    (netIncome : Q) (inputs : FinancialInputs) (familyMonthly : Q)
  : ScenarioAnalysis :=
  let bankMonthly :=
    pmt (bankRate / 100) (bankTermYears inputs) (bankLoanAmount inputs) in
  let totalDebt := bankMonthly + familyMonthly in
  let dtiPct :=
    if Qlt_bool 0 netIncome then (totalDebt / netIncome) * 100 else 100 in
  let airbnb := if useAirbnbIncome inputs then airbnbIncome inputs else 0 in
  let monthlyNet :=
    netIncome - otherFixedCostsMonthly inputs + airbnb - totalDebt in
  let risk :=
    if Qle_bool dtiPct 45 && Qlt_bool 1000 monthlyNet then Laag
    else if Qle_bool dtiPct 55 && Qlt_bool 0 monthlyNet then Gemiddeld
    else Hoog in
  {| name := name;
     rate := round2 bankRate;
     incomeDelta := incomeDelta;
     bankMonthly := round2 bankMonthly;
     familyMonthly := round2 familyMonthly;
     totalDebt := round2 totalDebt;
     dtiPct := round2 dtiPct;
     monthlyNet := round2 monthlyNet;
     risk := risk |}.

Definition generateScenarios (inputs : FinancialInputs) (summary : Summary)
  : list ScenarioAnalysis :=
  let optimisticRate := Qmax (1 # 2) (bankRatePct inputs - (1 # 2)) in
  let optimisticIncome := netIncomeMonthly inputs * (11 # 10) in
  let conservativeRate := bankRatePct inputs + (1 # 2) in
  let conservativeIncome := netIncomeMonthly inputs * (9 # 10) in
  [ calculateScenario "Optimistisch" optimisticRate 10 optimisticIncome
      inputs (Finance.familyMonthly summary);
    calculateScenario "Realistisch" (bankRatePct inputs) 0
      (netIncomeMonthly inputs) inputs (Finance.familyMonthly summary);
    calculateScenario "Conservatief" conservativeRate (-10)
      conservativeIncome inputs (Finance.familyMonthly summary) ].

(** [assessOverallRisk(summary, scenarios)].  [scenarios[1]] is only read
    (its [risk] field) after the funding-gap check; reading it on a list
    that is too short throws, which is [None] here. *)
Definition assessOverallRisk (summary : Summary)
    (scenarios : list ScenarioAnalysis) : option (RiskLevel * RiskColor) :=
  let realisticScenario := nth_error scenarios 1 in
  if Qlt_bool 0 (fundingGap summary) then
    Some (HoogRisicoTekort (Math_round (fundingGap summary)), red)
  else
    match realisticScenario with
    | None => None
    | Some s =>
        match risk s with
        | Hoog => Some (HoogRisicoDTI, red)
        | Gemiddeld => Some (GemiddeldRisico, yellow)
        | Laag => Some (LaagRisico, green)
        end
    end.

Definition analyzeFinancials (inputs : FinancialInputs) (summary : Summary)
  : option AIAnalysis :=
  let scenarios := generateScenarios inputs summary in
  match assessOverallRisk summary scenarios with
  | None => None
  | Some (riskLevel, riskColor) =>
      Some {| riskLevel := riskLevel;
              riskColor := riskColor;
              scenarios := scenarios |}
  end.

(** The colour that goes with a scenario tier. *)
Definition tierColor (t : Risk) : RiskColor :=
  match t with Hoog => red | Gemiddeld => yellow | Laag => green end.

End Advisor.

(* ================================================================== *)
(** * lib/sensitivity.ts *)
(* ================================================================== *)

Module Sensitivity.

(** The operations of [number] that the grid generator uses. *)
Record NumberOps (num : Type) : Type := {
  n_add : num -> num -> num;
  n_div : num -> num -> num;
  n_mul : num -> num -> num;
  n_leb : num -> num -> bool;
  n_ltb : num -> num -> bool;
  n_0 : num;
  n_45 : num;
  n_100 : num
}.
Arguments n_add {num}.
Arguments n_div {num}.
Arguments n_mul {num}.
Arguments n_leb {num}.
Arguments n_ltb {num}.
Arguments n_0 {num}.
Arguments n_45 {num}.
Arguments n_100 {num}.

Record SensitivityCell (num : Type) : Type := {
  amount : num;
  rate : num;
  monthly : num;
  isComfortable : bool
}.
Arguments amount {num}.
Arguments rate {num}.
Arguments monthly {num}.
Arguments isComfortable {num}.

Record SensitivityConfig (num : Type) : Type := {
  minAmount : num;
  maxAmount : num;
  stepAmount : num;
  minRate : num;
  maxRate : num;
  stepRate : num
}.
Arguments minAmount {num}.
Arguments maxAmount {num}.
Arguments stepAmount {num}.
Arguments minRate {num}.
Arguments maxRate {num}.
Arguments stepRate {num}.

Section Grid.
Context {num : Type}.
Variable ops : NumberOps num.
(** [pmt] and [round2] of finance.ts on this kind of number. *)
Variable pmt : num -> Z -> num -> num.
Variable round2 : num -> num.

Variable config : SensitivityConfig num.
Variable bankTermYears : Z.
Variable familyMonthly : num.
Variable netIncomeMonthly : num.

(** The body of the inner loop: one cell. *)
Definition cellAt (amount rate : num) : SensitivityCell num :=
  let monthly := pmt (n_div ops rate (n_100 ops)) bankTermYears amount in
  let totalDebt := n_add ops monthly familyMonthly in
  let dti :=
    if n_ltb ops (n_0 ops) netIncomeMonthly
    then n_mul ops (n_div ops totalDebt netIncomeMonthly) (n_100 ops)
    else n_100 ops in
  {| amount := amount;
     rate := round2 rate;
     monthly := round2 monthly;
     isComfortable := n_leb ops dti (n_45 ops) |}.

(** [for (let rate = ...; rate <= config.maxRate; rate += config.stepRate)]:
    the cells pushed from [rate] on, or [None] when the fuel runs out
    before the loop condition fails. *)
Fixpoint rateLoop (fuel : nat) (amount rate : num)
  : option (list (SensitivityCell num)) :=
  match fuel with
  | O => None
  | S fuel' =>
      if n_leb ops rate (maxRate config) then
        match rateLoop fuel' amount (n_add ops rate (stepRate config)) with
        | Some row => Some (cellAt amount rate :: row)
        | None => None
        end
      else Some []
  end.

(** [for (let amount = ...; amount <= config.maxAmount;
          amount += config.stepAmount)]. *)
Fixpoint amountLoop (fuel : nat) (amount : num)
  : option (list (list (SensitivityCell num))) :=
  match fuel with
  | O => None
  | S fuel' =>
      if n_leb ops amount (maxAmount config) then
        match rateLoop fuel' amount (minRate config) with
        | None => None
        | Some row =>
            match amountLoop fuel' (n_add ops amount (stepAmount config)) with
            | Some grid => Some (row :: grid)
            | None => None
            end
        end
      else Some []
  end.

(** [generateSensitivityGrid(config, bankTermYears, familyMonthly,
    netIncomeMonthly, otherFixedCostsMonthly)]; the last parameter is
    never read.  [None] stands for a run that has not returned within
    [fuel] loop tests. *)
Definition generateSensitivityGrid (fuel : nat)
  : option (list (list (SensitivityCell num))) :=
  amountLoop fuel (minAmount config).

End Grid.

(** The values a loop [for (x = lo; x <= hi; x += step)] gives its
    variable, or [None] when the fuel runs out first. *)
Fixpoint sweep {num : Type} (ops : NumberOps num) (hi step : num)
    (fuel : nat) (x : num) : option (list num) :=
  match fuel with
  | O => None
  | S fuel' =>
      if n_leb ops x hi then
        match sweep ops hi step fuel' (n_add ops x step) with
        | Some rest => Some (x :: rest)
        | None => None
        end
      else Some []
  end.

(** [getAmounts]: [row[0].amount] of every row; reading [row[0]] of an
    empty row throws. *)
Fixpoint getAmounts {num : Type} (grid : list (list (SensitivityCell num)))
  : option (list num) :=
  match grid with
  | [] => Some []
  | row :: grid' =>
      match row, getAmounts grid' with
      | cell :: _, Some rest => Some (amount cell :: rest)
      | _, _ => None
      end
  end.

(** [getRates]: the rates of the first row. *)
Definition getRates {num : Type} (grid : list (list (SensitivityCell num)))
  : list num :=
  match grid with
  | [] => []
  | row :: _ => map rate row
  end.

(** Exact rationals. *)
Definition QOps : NumberOps Q :=
  {| n_add := Qplus; n_div := Qdiv; n_mul := Qmult;
     n_leb := Qle_bool; n_ltb := Finance.Qlt_bool;
     n_0 := 0; n_45 := 45; n_100 := 100 |}.

(** IEEE 754 binary64, the [number] of the running program. *)
Definition F64Ops : NumberOps float :=
  {| n_add := PrimFloat.add; n_div := PrimFloat.div; n_mul := PrimFloat.mul;
     n_leb := PrimFloat.leb; n_ltb := PrimFloat.ltb;
     n_0 := 0%float; n_45 := 45%float; n_100 := 100%float |}.

(** The generator on exact rationals, with [pmt] and [round2] of
    finance.ts. *)
Definition generateSensitivityGridQ (config : SensitivityConfig Q)
    (bankTermYears : Z) (familyMonthly netIncomeMonthly : Q) (fuel : nat)
  : option (list (list (SensitivityCell Q))) :=
  generateSensitivityGrid QOps Finance.pmt Finance.round2 config
    bankTermYears familyMonthly netIncomeMonthly fuel.

(** The generator on doubles.  [Math.pow] and [Math.round] are not
    operations of IEEE 754, so [pmt] and [round2] on doubles stay
    parameters. *)
Definition generateSensitivityGridF64 (pmt : float -> Z -> float -> float)
    (round2 : float -> float) (config : SensitivityConfig float)
    (bankTermYears : Z) (familyMonthly netIncomeMonthly : float) (fuel : nat)
  : option (list (list (SensitivityCell float))) :=
  generateSensitivityGrid F64Ops pmt round2 config
    bankTermYears familyMonthly netIncomeMonthly fuel.

(** The number of values from [lo] up to [hi] in steps of [step]:
    [floor ((hi - lo) / step) + 1]. *)
Definition sweepCount (lo hi step : Q) : Z := (Qfloor ((hi - lo) / step) + 1)%Z.

(** [DEFAULT_SENSITIVITY_CONFIG], on exact rationals and on doubles; its
    bounds and steps are all doubles. *)
Definition DEFAULT_SENSITIVITY_CONFIG : SensitivityConfig Q :=
  {| minAmount := 600000; maxAmount := 1000000; stepAmount := 25000;
     minRate := 3; maxRate := 11 # 2; stepRate := 1 # 4 |}.

Definition DEFAULT_SENSITIVITY_CONFIG_F64 : SensitivityConfig float :=
  {| minAmount := 600000%float; maxAmount := 1000000%float;
     stepAmount := 25000%float;
     minRate := 3%float; maxRate := 5.5%float; stepRate := 0.25%float |}.

(** The configuration of tests/sensitivity.test.ts. *)
Definition testConfig : SensitivityConfig Q :=
  {| minAmount := 600000; maxAmount := 700000; stepAmount := 50000;
     minRate := 3; maxRate := 4; stepRate := 1 # 2 |}.

(** Rates from 3 to 4 percent in steps of a tenth, on exact rationals and
    on doubles ([0x1.999999999999ap-4] is the double nearest to 0.1). *)
Definition tenthConfigQ : SensitivityConfig Q :=
  {| minAmount := 600000; maxAmount := 700000; stepAmount := 50000;
     minRate := 3; maxRate := 4; stepRate := 1 # 10 |}.

Definition tenthConfigF64 : SensitivityConfig float :=
  {| minAmount := 600000%float; maxAmount := 700000%float;
     stepAmount := 50000%float;
     minRate := 3%float; maxRate := 4%float;
     stepRate := 0x1.999999999999ap-4%float |}.

(** The amounts and the rates that the two loops visit on doubles for
    [tenthConfigF64], computed by running the loops: 600000, 650000 and
    700000; and 3, 3.1, 3.2, 3.3000000000000003, 3.4000000000000004,
    3.5000000000000004, 3.6000000000000005, 3.7000000000000006,
    3.8000000000000007 and 3.900000000000001. *)
Definition tenthAmountsF64 : list float :=
  Eval vm_compute in
    match sweep F64Ops (maxAmount tenthConfigF64) (stepAmount tenthConfigF64)
            20 (minAmount tenthConfigF64) with
    | Some l => l
    | None => []
    end.

Definition tenthRatesF64 : list float :=
  Eval vm_compute in
    match sweep F64Ops (maxRate tenthConfigF64) (stepRate tenthConfigF64)
            20 (minRate tenthConfigF64) with
    | Some l => l
    | None => []
    end.

(** A configuration whose amounts are out of order. *)
Definition reversedConfig : SensitivityConfig Q :=
  {| minAmount := 700000; maxAmount := 600000; stepAmount := 50000;
     minRate := 3; maxRate := 4; stepRate := 1 # 2 |}.

(** A configuration whose rates are out of order. *)
Definition reversedRatesConfig : SensitivityConfig Q :=
  {| minAmount := 600000; maxAmount := 700000; stepAmount := 50000;
     minRate := 4; maxRate := 3; stepRate := 1 # 2 |}.

(** A configuration whose amount step is zero. *)
Definition zeroStepConfig : SensitivityConfig Q :=
  {| minAmount := 600000; maxAmount := 700000; stepAmount := 0;
     minRate := 3; maxRate := 4; stepRate := 1 # 2 |}.

End Sensitivity.

(* ================================================================== *)
(** * Closed forms used to state and prove the schedule properties *)
(* ================================================================== *)

Module Annuity.

(** [q] multiplied by itself [j] times. *)
Fixpoint qpow (q : Q) (j : nat) : Q :=
  match j with
  | O => 1
  | S j' => q * qpow q j'
  end.

(** The discount factor of [j] months at monthly rate [r]. *)
Definition discount (r : Q) (j : nat) : Q := qpow (/ (1 + r)) j.

(** The balance that [j] more payments of [pay] pay off exactly. *)
Definition owed (pay r : Q) (j : nat) : Q := pay * (1 - discount r j) / r.

(** [1 + q + ... + q^(j-1)]. *)
Fixpoint geomSum (q : Q) (j : nat) : Q :=
  match j with
  | O => 0
  | S j' => geomSum q j' + qpow q j'
  end.

(** A row all of whose amounts are zero. *)
Definition zeroRow (row : Finance.AmortizationRow) : Prop :=
  Finance.payment row == 0 /\ Finance.interest row == 0
  /\ Finance.principal row == 0 /\ Finance.balance row == 0.

Definition nonIncreasing (l : list Q) : Prop := Sorted (fun x y => y <= x) l.
Definition nonDecreasing (l : list Q) : Prop := Sorted Qle l.

End Annuity.

(* ================================================================== *)
(** * lib/finance.ts: the automatic bank loan, default inputs *)
(* ================================================================== *)

Module Totals.
Import Finance.

(** [calculateBankLoanAmount(inputs)]. *)
Definition calculateBankLoanAmount (inputs : FinancialInputs) : Q :=
  let regTax := purchasePrice inputs * (registrationRatePct inputs / 100) in
  let renoWithCont :=
    renovationBudget inputs * (1 + contingencyPct inputs / 100) in
  let totalProject :=
    purchasePrice inputs + regTax + notaryFees inputs + renoWithCont in
  let otherSources :=
    ownCash inputs + cryptoNet inputs + familyLoanAmount inputs in
  let bankLoan := totalProject - otherSources in
  Qmax 0 (round2 bankLoan).

(** [{ ...inputs, bankLoanAmount: amount }]. *)
Definition withBankLoanAmount (inputs : FinancialInputs) (amount : Q)
  : FinancialInputs :=
  {| purchasePrice := purchasePrice inputs;
     registrationRatePct := registrationRatePct inputs;
     notaryFees := notaryFees inputs;
     renovationBudget := renovationBudget inputs;
     contingencyPct := contingencyPct inputs;
     ownCash := ownCash inputs;
     cryptoNet := cryptoNet inputs;
     familyLoanAmount := familyLoanAmount inputs;
     familyLoanRatePct := familyLoanRatePct inputs;
     familyLoanTermYears := familyLoanTermYears inputs;
     bankLoanAmount := amount;
     bankRatePct := bankRatePct inputs;
     bankTermYears := bankTermYears inputs;
     netIncomeMonthly := netIncomeMonthly inputs;
     otherFixedCostsMonthly := otherFixedCostsMonthly inputs;
     airbnbIncome := airbnbIncome inputs;
     useAirbnbIncome := useAirbnbIncome inputs;
     businessUsePct := businessUsePct inputs;
     projectName := projectName inputs;
     reportNotes := reportNotes inputs |}.

Definition DEFAULT_INPUTS_BASE : FinancialInputs :=
  {| purchasePrice := 700000;
     registrationRatePct := 2;
     notaryFees := 5000;
     renovationBudget := 450000;
     contingencyPct := 12;
     ownCash := 30000;
     cryptoNet := 0;
     familyLoanAmount := 200000;
     familyLoanRatePct := 3 # 2;
     familyLoanTermYears := 15;
     bankLoanAmount := 0;
     bankRatePct := 4;
     bankTermYears := 25;
     netIncomeMonthly := 10500;
     otherFixedCostsMonthly := 1500;
     airbnbIncome := 800;
     useAirbnbIncome := true;
     businessUsePct := 15;
     projectName := "Brasschaat Villa Plan";
     reportNotes := "" |}.

Definition DEFAULT_INPUTS : FinancialInputs :=
  withBankLoanAmount DEFAULT_INPUTS_BASE
    (calculateBankLoanAmount DEFAULT_INPUTS_BASE).

End Totals.

(* ================================================================== *)
(** * lib/advisor.ts: recommendations and summary sentences *)
(* ================================================================== *)

Module Advice.
Import Finance Advisor.

(** [Math.ceil]. *)
Definition Math_ceil (x : Q) : Z := Qceiling x.

(** The recommendations [generateRecommendations] can push, one
    constructor for each template, with the values the template prints. *)
Inductive Recommendation : Type :=
  | RecFundingGap (gap : Z)
  | RecDTITooHigh (dti : Q) (loanReduction : Z)
  | RecDTIHighSide (dti : Q) (loanReduction : Z)
  | RecBuffer
  | RecRateRisk (rate dti : Q)
  | RecAirbnb (income : Q)
  | RecContingency
  | RecSolid.

(** [generateRecommendations(inputs, summary, scenarios)].  Reading
    [scenarios[2].dtiPct] on a list that is too short throws, which is
    [None] here. *)
Definition generateRecommendations (inputs : FinancialInputs)
    (summary : Summary) (scenarios : list ScenarioAnalysis)
  : option (list Recommendation) :=
  let rec1 :=
    if Qlt_bool 0 (fundingGap summary)
    then [RecFundingGap (Math_round (fundingGap summary))] else [] in
  let rec2 :=
    if Qlt_bool 45 (Finance.dtiPct summary) then
      let reduction :=
        Math_ceil (Finance.totalDebt summary * netIncomeMonthly inputs
                   * (45 # 100) / 100 - Finance.totalDebt summary) in
      let loanReduction :=
        Z.abs (Math_round (inject_Z reduction * 12 * 10)) in
      if Qlt_bool 55 (Finance.dtiPct summary)
      then [RecDTITooHigh (Finance.dtiPct summary) loanReduction]
      else [RecDTIHighSide (Finance.dtiPct summary) loanReduction]
    else [] in
  let rec3 := if Qlt_bool (netAfter summary) 1000 then [RecBuffer] else [] in
  match nth_error scenarios 2 with
  | None => None
  | Some conservativeScenario =>
      let rec4 :=
        if Qlt_bool 60 (dtiPct conservativeScenario)
        then [RecRateRisk (rate conservativeScenario)
                (dtiPct conservativeScenario)]
        else [] in
      let rec5 :=
        if useAirbnbIncome inputs && Qlt_bool 500 (airbnbIncome inputs)
        then [RecAirbnb (airbnbIncome inputs)] else [] in
      let rec6 :=
        if Qlt_bool (contingencyPct inputs) 12 then [RecContingency]
        else [] in
      let recommendations := rec1 ++ rec2 ++ rec3 ++ rec4 ++ rec5 ++ rec6 in
      let rec7 :=
        if Qle_bool (fundingGap summary) 0
           && Qle_bool (Finance.dtiPct summary) 45
           && Qle_bool 1500 (netAfter summary)
           && (List.length recommendations <? 2)%nat
        then [RecSolid] else [] in
      Some (firstn 5 (recommendations ++ rec7))
  end.

(** The recommendations that may stand beside the solid-plan note. *)
Definition isFollowUp (r : Recommendation) : Prop :=
  match r with
  | RecRateRisk _ _ | RecAirbnb _ | RecContingency | RecSolid => True
  | _ => False
  end.

(** The sentences [generateSummaryText] can push. *)
Inductive SummarySentence : Type :=
  | SentTotal (project sources : Z)
  | SentShortfall (gap : Z)
  | SentSurplus (surplus : Z)
  | SentDTIVeryHigh (dti : Q)
  | SentDTISolid (dti : Q)
  | SentDTIHealthy (dti : Q)
  | SentNetShortfall (shortfall : Z)
  | SentNetTight (net : Z)
  | SentNetSome (net : Z)
  | SentNetHealthy (net : Z).

(** [generateSummaryText(summary)], before the sentences are joined. *)
Definition generateSummaryText (summary : Summary) : list SummarySentence :=
  [SentTotal (Math_round (totalProject summary))
     (Math_round (totalSources summary))]
  ++ (if Qlt_bool 0 (fundingGap summary)
      then [SentShortfall (Math_round (fundingGap summary))]
      else if Qlt_bool (fundingGap summary) (-10000)
      then [SentSurplus (Math_round (Qabs (fundingGap summary)))]
      else [])
  ++ [if Qlt_bool 55 (Finance.dtiPct summary)
      then SentDTIVeryHigh (Finance.dtiPct summary)
      else if Qlt_bool 45 (Finance.dtiPct summary)
      then SentDTISolid (Finance.dtiPct summary)
      else SentDTIHealthy (Finance.dtiPct summary)]
  ++ [if Qlt_bool (netAfter summary) 0
      then SentNetShortfall (Math_round (Qabs (netAfter summary)))
      else if Qlt_bool (netAfter summary) 500
      then SentNetTight (Math_round (netAfter summary))
      else if Qlt_bool (netAfter summary) 1500
      then SentNetSome (Math_round (netAfter summary))
      else SentNetHealthy (Math_round (netAfter summary))].

(** Inputs and a summary on which every warning applies, and three
    copies of a scenario with a debt ratio above 60. *)
Definition strainedInputs : FinancialInputs :=
  {| purchasePrice := 700000; registrationRatePct := 2; notaryFees := 5000;
     renovationBudget := 450000; contingencyPct := 10; ownCash := 30000;
     cryptoNet := 0; familyLoanAmount := 200000;
     familyLoanRatePct := 3 # 2; familyLoanTermYears := 15;
     bankLoanAmount := 850000; bankRatePct := 4; bankTermYears := 25;
     netIncomeMonthly := 8000; otherFixedCostsMonthly := 1500;
     airbnbIncome := 800; useAirbnbIncome := true; businessUsePct := 15;
     projectName := "Brasschaat Villa Plan"; reportNotes := "" |}.

Definition strainedSummary : Summary :=
  {| regTax := 14000; renoWithCont := 495000; totalProject := 1214000;
     totalSources := 1080000; fundingGap := 134000;
     Finance.bankMonthly := 4486.61; Finance.familyMonthly := 1241.49;
     Finance.totalDebt := 5728.1; Finance.dtiPct := 71.6;
     netAfter := 1571.9 - 1000 |}.

Definition strainedScenario : ScenarioAnalysis :=
  {| name := "Conservatief"; rate := 4.5; incomeDelta := -10;
     bankMonthly := 4724.58; familyMonthly := 1241.49;
     totalDebt := 5966.07; dtiPct := 82.86; monthlyNet := 533.93;
     risk := Hoog |}.

End Advice.

(* ================================================================== *)
(** * lib/sensitivity.ts: the range of the payments and the colours *)
(* ================================================================== *)

Module Heatmap.
Import Finance Sensitivity.

(** The result of [getMonthlyRange].  [None] stands for the [Infinity]
    that [min] starts from and the [-Infinity] that [max] starts from. *)
Record MonthlyRange : Type := {
  min : option Q;
  max : option Q
}.

(** [if (cell.monthly < min) min = cell.monthly;
     if (cell.monthly > max) max = cell.monthly]. *)
Definition visitCell (range : MonthlyRange) (cell : SensitivityCell Q)
  : MonthlyRange :=
  {| min :=
       match min range with
       | None => Some (monthly cell)
       | Some lo =>
           if Qlt_bool (monthly cell) lo then Some (monthly cell)
           else Some lo
       end;
     max :=
       match max range with
       | None => Some (monthly cell)
       | Some hi =>
           if Qlt_bool hi (monthly cell) then Some (monthly cell)
           else Some hi
       end |}.

(** [getMonthlyRange(grid)]: the two nested [forEach]. *)
Definition getMonthlyRange (grid : list (list (SensitivityCell Q)))
  : MonthlyRange :=
  fold_left (fun range row => fold_left visitCell row range) grid
    {| min := None; max := None |}.

(** [range] is what [getMonthlyRange] should hold after the cells [seen]:
    nothing before the first cell, and afterwards the lowest and the
    highest payment among them. *)
Definition spans (seen : list (SensitivityCell Q)) (range : MonthlyRange)
  : Prop :=
  match min range, max range with
  | None, None => seen = []
  | Some lo, Some hi =>
      (forall cell, In cell seen -> lo <= monthly cell /\ monthly cell <= hi)
      /\ (exists cell, In cell seen /\ monthly cell = lo)
      /\ (exists cell, In cell seen /\ monthly cell = hi)
  | _, _ => False
  end.

(** [getColorClass(monthly, min, max, isComfortable)]. *)
Definition getColorClass (monthly min max : Q) (isComfortable : bool)
  : string :=
  let range := max - min in
  let normalized :=
    if Qlt_bool 0 range then (monthly - min) / range else 0 in
  if negb isComfortable then "bg-red-100 text-red-900"
  else if Qlt_bool normalized (33 # 100) then "bg-green-100 text-green-900"
  else if Qlt_bool normalized (67 # 100) then "bg-yellow-100 text-yellow-900"
  else "bg-orange-100 text-orange-900".

End Heatmap.

(* ================================================================== *)
(** * lib/storage.ts *)
(* ================================================================== *)

Module Storage.
Import Finance.

Record Scenario : Type := {
  id : string;
  name : string;
  inputs : FinancialInputs;
  createdAt : string;
  updatedAt : string
}.

(** What [localStorage] holds under [STORAGE_KEY]: a text that
    [JSON.parse] rejects (or the empty text), or the JSON of a list of
    scenarios.  [JSON.parse (JSON.stringify l)] is taken to be [l]; a
    text that parses to something else than a list of scenarios is not
    modelled. *)
Inductive StoredScenarios : Type :=
  | Unreadable
  | Stored (scenarios : list Scenario).

(** The two keys of [localStorage] that the module uses; [None] is a key
    that is not set.  Writing is taken to succeed: a full storage is not
    modelled. *)
Record LocalStorage : Type := {
  scenariosItem : option StoredScenarios;
  defaultItem : option string
}.

(** What [generateId()] and the two [new Date().toISOString()] return in
    a call that makes a scenario. *)
Record Stamp : Type := {
  stampId : string;
  stampCreated : string;
  stampUpdated : string
}.

Definition loadScenarios (storage : LocalStorage) : list Scenario :=
  match scenariosItem storage with
  | Some (Stored scenarios) => scenarios
  | Some Unreadable => []
  | None => []
  end.

Definition saveScenarios (scenarios : list Scenario) (storage : LocalStorage)
  : LocalStorage :=
  {| scenariosItem := Some (Stored scenarios);
     defaultItem := defaultItem storage |}.

Definition createScenario (stamp : Stamp) (name : string)
    (inputs : FinancialInputs) (storage : LocalStorage)
  : Scenario * LocalStorage :=
  let scenario :=
    {| id := stampId stamp; name := name; inputs := inputs;
       createdAt := stampCreated stamp; updatedAt := stampUpdated stamp |} in
  let scenarios := loadScenarios storage in
  (scenario, saveScenarios (scenarios ++ [scenario]) storage).

(** [Partial<Omit<Scenario, 'id' | 'createdAt'>>]: each field is given or
    left out. *)
Record ScenarioUpdates : Type := {
  newName : option string;
  newInputs : option FinancialInputs;
  newUpdatedAt : option string
}.

(** [{ ...scenario, ...updates, updatedAt: now }]. *)
Definition applyUpdates (scenario : Scenario) (updates : ScenarioUpdates)
    (now : string) : Scenario :=
  {| id := id scenario;
     name := match newName updates with
             | Some n => n
             | None => name scenario
             end;
     inputs := match newInputs updates with
               | Some i => i
               | None => inputs scenario
               end;
     createdAt := createdAt scenario;
     updatedAt := now |}.

(** [scenarios.findIndex((s) => s.id === id)], [None] for [-1]. *)
Fixpoint findIndex (wanted : string) (scenarios : list Scenario)
  : option nat :=
  match scenarios with
  | [] => None
  | s :: rest =>
      if String.eqb (id s) wanted then Some O
      else option_map S (findIndex wanted rest)
  end.

(** [scenarios[index] = value], for an index within the list. *)
Fixpoint setAt (index : nat) (value : Scenario) (scenarios : list Scenario)
  : list Scenario :=
  match scenarios, index with
  | [], _ => []
  | _ :: rest, O => value :: rest
  | s :: rest, S index' => s :: setAt index' value rest
  end.

Definition updateScenario (now : string) (wanted : string)
    (updates : ScenarioUpdates) (storage : LocalStorage)
  : option Scenario * LocalStorage :=
  let scenarios := loadScenarios storage in
  match findIndex wanted scenarios with
  | None => (None, storage)
  | Some index =>
      match nth_error scenarios index with
      | None => (None, storage)
      | Some old =>
          let updated := applyUpdates old updates now in
          (Some updated,
           saveScenarios (setAt index updated scenarios) storage)
      end
  end.

Definition getDefaultScenarioId (storage : LocalStorage) : option string :=
  defaultItem storage.

Definition setDefaultScenario (wanted : string) (storage : LocalStorage)
  : LocalStorage :=
  {| scenariosItem := scenariosItem storage; defaultItem := Some wanted |}.

Definition clearDefaultScenario (storage : LocalStorage) : LocalStorage :=
  {| scenariosItem := scenariosItem storage; defaultItem := None |}.

Definition optionStringEqb (o : option string) (s : string) : bool :=
  match o with
  | Some x => String.eqb x s
  | None => false
  end.

Definition deleteScenario (wanted : string) (storage : LocalStorage)
  : bool * LocalStorage :=
  let scenarios := loadScenarios storage in
  let filtered :=
    filter (fun s => negb (String.eqb (id s) wanted)) scenarios in
  if (List.length filtered =? List.length scenarios)%nat then (false, storage)
  else
    let storage' := saveScenarios filtered storage in
    if optionStringEqb (getDefaultScenarioId storage') wanted
    then (true, clearDefaultScenario storage')
    else (true, storage').

(** [scenarios.find((s) => s.id === id)]. *)
Definition findScenario (wanted : string) (scenarios : list Scenario)
  : option Scenario :=
  find (fun s => String.eqb (id s) wanted) scenarios.

Definition getScenario (wanted : string) (storage : LocalStorage)
  : option Scenario :=
  findScenario wanted (loadScenarios storage).

(** [newName || `${source.name} (copy)`]: a name that is left out or
    empty gives way to the default. *)
Definition duplicateScenario (stamp : Stamp) (wanted : string)
    (copyName : option string) (storage : LocalStorage)
  : option Scenario * LocalStorage :=
  match findScenario wanted (loadScenarios storage) with
  | None => (None, storage)
  | Some source =>
      let chosen :=
        match copyName with
        | Some n => if String.eqb n "" then (name source ++ " (copy)")%string
                    else n
        | None => (name source ++ " (copy)")%string
        end in
      let (duplicate, storage') :=
        createScenario stamp chosen (inputs source) storage in
      (Some duplicate, storage')
  end.

Definition renameScenario (now : string) (wanted : string)
    (chosen : string) (storage : LocalStorage)
  : option Scenario * LocalStorage :=
  updateScenario now wanted
    {| newName := Some chosen; newInputs := None; newUpdatedAt := None |}
    storage.

(** [if (!id) return null]: no default, or an empty one, gives [null]. *)
Definition getDefaultScenario (storage : LocalStorage) : option Scenario :=
  match getDefaultScenarioId storage with
  | None => None
  | Some wanted =>
      if String.eqb wanted "" then None else getScenario wanted storage
  end.

(** An element of the array that [importScenarios] parses: the three
    fields it checks, each present or not. *)
Record ImportedEntry : Type := {
  entryId : option string;
  entryName : option string;
  entryInputs : option FinancialInputs
}.

(** What [JSON.parse(json)] gives [importScenarios]: a syntax error,
    something that is not an array, or an array of entries. *)
Inductive ImportedJson : Type :=
  | BadJson
  | NotAnArray
  | Entries (entries : list ImportedEntry).

(** [!scenario.id || !scenario.name || !scenario.inputs] is false. *)
Definition validEntry (entry : ImportedEntry) : bool :=
  match entryId entry, entryName entry, entryInputs entry with
  | Some i, Some n, Some _ =>
      negb (String.eqb i "") && negb (String.eqb n "")
  | _, _, _ => false
  end.

(** [imported.map(...)]: every entry gets the stamp of its position. *)
Fixpoint withNewIds (stamps : nat -> Stamp) (position : nat)
    (entries : list ImportedEntry) : list Scenario :=
  match entries with
  | [] => []
  | entry :: rest =>
      match entryName entry, entryInputs entry with
      | Some n, Some i =>
          {| id := stampId (stamps position); name := n; inputs := i;
             createdAt := stampCreated (stamps position);
             updatedAt := stampUpdated (stamps position) |}
          :: withNewIds stamps (S position) rest
      | _, _ => withNewIds stamps (S position) rest
      end
  end.

(** [importScenarios(json, merge)]: the number imported, or [None] for
    the error that every failure is turned into. *)
Definition importScenarios (stamps : nat -> Stamp) (json : ImportedJson)
    (merge : bool) (storage : LocalStorage) : option nat * LocalStorage :=
  match json with
  | BadJson => (None, storage)
  | NotAnArray => (None, storage)
  | Entries imported =>
      if forallb validEntry imported then
        let scenarios := if merge then loadScenarios storage else [] in
        let fresh := withNewIds stamps 0 imported in
        (Some (List.length fresh), saveScenarios (scenarios ++ fresh) storage)
      else (None, storage)
  end.

(** [exportScenarios()]: the JSON of the stored list, as
    [importScenarios] will parse it. *)
Definition exportScenarios (storage : LocalStorage) : ImportedJson :=
  Entries (map (fun s => {| entryId := Some (id s);
                            entryName := Some (name s);
                            entryInputs := Some (inputs s) |})
             (loadScenarios storage)).

Definition clearAllScenarios (storage : LocalStorage) : LocalStorage :=
  {| scenariosItem := None; defaultItem := None |}.

Definition initializeDefaultScenario (stamp : Stamp) (storage : LocalStorage)
  : option Scenario * LocalStorage :=
  match loadScenarios storage with
  | [] =>
      let (scenario, storage') :=
        createScenario stamp "Default Plan" Totals.DEFAULT_INPUTS storage in
      (Some scenario, setDefaultScenario (id scenario) storage')
  | _ :: _ => (None, storage)
  end.

(** An empty storage and a stamp, for examples. *)
Definition emptyStorage : LocalStorage :=
  {| scenariosItem := None; defaultItem := None |}.

Definition stampOne : Stamp :=
  {| stampId := "scenario-1-a"; stampCreated := "2025-01-01T00:00:00.000Z";
     stampUpdated := "2025-01-01T00:00:00.000Z" |}.

Definition stampTwo : Stamp :=
  {| stampId := "scenario-2-b"; stampCreated := "2025-01-02T00:00:00.000Z";
     stampUpdated := "2025-01-02T00:00:00.000Z" |}.

(** A storage with one scenario, which is the default. *)
Definition storedDefault : LocalStorage :=
  setDefaultScenario (stampId stampOne)
    (snd (createScenario stampOne "Test" Totals.DEFAULT_INPUTS_BASE
            emptyStorage)).

End Storage.

(* ================================================================== *)
(** * lib/finance.ts on doubles *)
(* ================================================================== *)

(** [round2], [pmt] and [buildAmort] once more, on binary64 floats, the
    numbers the program runs on.  Sums, products, quotients and
    comparisons are the IEEE 754 operations of [PrimFloat].  [Math.round],
    [Math.min] and [Math.max] are written out from their definition in the
    language standard.  [Math.pow] is not fixed bit for bit by the
    standard, so it is an argument of [pmt] and [buildAmort]; what a
    theorem needs of it is a hypothesis of that theorem. *)
Module Doubles.
Local Open Scope float_scope.

(** A whole number as a double; exact below 2^53 in absolute value. *)
Definition ofZ (z : Z) : float :=
  match z with
  | Z0 => 0
  | Zpos _ => of_uint63 (Uint63.of_Z z)
  | Zneg p => - of_uint63 (Uint63.of_Z (Zpos p))
  end.

(** [Math.round]: the nearest whole number, halves towards plus infinity.
    A double with a binary exponent that is not negative is whole
    already, and so are the zeros, the infinities and NaN.  Otherwise the
    double is [m / 2^k] or [- m / 2^k] with [k = - e], and
    [floor (x + 1/2)] is taken on whole numbers, without rounding; a
    result of zero keeps the sign of [x]. *)
Definition Math_round (x : float) : float :=
  match Prim2SF x with
  | S754_finite s m e =>
      if (0 <=? e)%Z then x
      else
        let n := if s then ((2 ^ (- e) - 2 * Zpos m) / 2 ^ (1 - e))%Z
                 else ((2 * Zpos m + 2 ^ (- e)) / 2 ^ (1 - e))%Z in
        if (n =? 0)%Z then (if s then neg_zero else zero) else ofZ n
  | _ => x
  end.

(** [round2 = (n) => Math.round(n * 100) / 100]. *)
Definition round2 (n : float) : float := Math_round (n * 100) / 100.

(** [Math.min]: NaN if an argument is NaN, and [-0] below [+0]. *)
Definition Math_min (x y : float) : float :=
  if is_nan x || is_nan y then nan
  else if x <? y then x
  else if y <? x then y
  else if get_sign x then x else y.

(** [Math.max]: NaN if an argument is NaN, and [+0] above [-0]. *)
Definition Math_max (x y : float) : float :=
  if is_nan x || is_nan y then nan
  else if y <? x then x
  else if x <? y then y
  else if get_sign x then y else x.

Record AmortizationRow : Type := {
  month : Z;
  payment : float;
  interest : float;
  principal : float;
  balance : float
}.

Section Pow.
(** [Math.pow]. *)
Variable Math_pow : float -> float -> float.

(** [pmt(rateAnnual, years, principal)], for a term of whole years. *)
Definition pmt (rateAnnual : float) (years : Z) (principal : float)
  : float :=
  let m := ofZ years * 12 in
  let r := rateAnnual / 12 in
  if (principal <=? 0) || (ofZ years <=? 0) then 0
  else if rateAnnual <=? 0 then principal / m
  else (principal * (r * Math_pow (1 + r) m)) / (Math_pow (1 + r) m - 1).

(** The body of the [for] loop of [buildAmort], run [n] more times from
    month [i] with running balance [bal]. *)
Fixpoint amortLoop (n : nat) (i : Z) (pay r bal : float)
  : list AmortizationRow :=
  match n with
  | O => []
  | S n' =>
      let interest := bal * r in
      let princ := Math_min (pay - interest) bal in
      let bal' := Math_max 0 (bal - princ) in
      {| month := i;
         payment := round2 pay;
         interest := round2 interest;
         principal := round2 princ;
         balance := round2 bal' |}
      :: amortLoop n' (i + 1)%Z pay r bal'
  end.

(** [buildAmort(principal, rateAnnual, years)]: the loop runs
    [years * 12] times, as in [Finance.buildAmort]. *)
Definition buildAmort (principal rateAnnual : float) (years : Z)
  : list AmortizationRow :=
  let pay := pmt rateAnnual years principal in
  let r := rateAnnual / 12 in
  amortLoop (Z.to_nat (years * 12)) 1%Z pay r principal.

End Pow.

(** A positive number as an odd number times a power of two. *)
Fixpoint oddPart (m : positive) : positive * Z :=
  match m with
  | xO m' => let (odd, k) := oddPart m' in (odd, (k + 1)%Z)
  | _ => (m, 0%Z)
  end.

(** The power [x^n] of a double for a whole exponent that is not
    negative, computed on whole numbers and rounded once, to the nearest
    double: what [Math.pow] returns when it is correctly rounded.  The
    double is [odd * 2^(e + k)] up to its sign, and its power
    [odd^n * 2^((e + k) * n)]. *)
Definition exactPow (x : float) (n : Z) : float :=
  match Prim2SF x with
  | S754_finite s m e =>
      let (odd, k) := oddPart m in
      SF2Prim (binary_normalize prec emax
                 ((if s then Zneg odd else Zpos odd) ^ n) ((e + k) * n)
                 false)
  | _ => nan
  end.

(** [Math.pow(x, n)] is within one unit in the last place of the
    correctly rounded power. *)
Definition nearExact (Math_pow : float -> float -> float) (x : float)
    (n : Z) : Prop :=
  Math_pow x (ofZ n) = next_down (exactPow x n) \/
  Math_pow x (ofZ n) = exactPow x n \/
  Math_pow x (ofZ n) = next_up (exactPow x n).

(** The whole number that a double is, if it is one. *)
Definition toZ (y : float) : option Z :=
  match Prim2SF y with
  | S754_zero _ => Some 0%Z
  | S754_finite s m e =>
      let k := if s then Zneg m else Zpos m in
      if (0 <=? e)%Z then Some (k * 2 ^ e)%Z
      else if (k mod 2 ^ (- e) =? 0)%Z then Some (k / 2 ^ (- e))%Z
      else None
  | _ => None
  end.

(** A correctly rounded [Math.pow] for the exponents that [pmt] uses. *)
Definition powRounded (x y : float) : float :=
  match toZ y with
  | Some n => if (0 <=? n)%Z then exactPow x n else nan
  | None => nan
  end.

End Doubles.

(* ================================================================== *)
(** * lib/sensitivity.ts: configurations on doubles *)
(* ================================================================== *)

Module GridSamples.
Import Sensitivity.

(** A configuration whose amounts are out of order. *)
Definition reversedConfigF64 : SensitivityConfig float :=
  {| minAmount := 700000%float; maxAmount := 600000%float;
     stepAmount := 50000%float;
     minRate := 3%float; maxRate := 4%float; stepRate := 0.5%float |}.

(** A configuration whose rates are out of order. *)
Definition reversedRatesConfigF64 : SensitivityConfig float :=
  {| minAmount := 600000%float; maxAmount := 700000%float;
     stepAmount := 50000%float;
     minRate := 4%float; maxRate := 3%float; stepRate := 0.5%float |}.

End GridSamples.

(* ================================================================== *)
(** * Properties *)
(* ================================================================== *)


(* ------------------------------------------------------------------ *)
(** ** Rounding to the cent *)
(* ------------------------------------------------------------------ *)

Section Rounding.
Import Finance.

Lemma Qlt_bool_iff x y : Qlt_bool x y = true <-> x < y.
Proof.
  unfold Qlt_bool. rewrite negb_true_iff.
  split; intro H.
  - apply Qnot_le_lt. intro Hle. apply Qle_bool_iff in Hle. congruence.
  - destruct (Qle_bool y x) eqn:E; [|reflexivity].
    apply Qle_bool_iff in E. exfalso. apply (Qlt_not_le _ _ H E).
Qed.

Lemma Qle_bool_false_iff x y : Qle_bool x y = false <-> y < x.
Proof.
  rewrite <- Qlt_bool_iff. unfold Qlt_bool.
  destruct (Qle_bool x y); simpl; intuition congruence.
Qed.

Global Instance Math_round_proper : Proper (Qeq ==> eq) Math_round.
Proof. intros x y E. unfold Math_round. now rewrite E. Qed.

Global Instance round2_proper : Proper (Qeq ==> Qeq) round2.
Proof. intros x y E. unfold round2. now rewrite E. Qed.

Lemma round2_unfold x :
  round2 x == inject_Z (Qfloor (x * 100 + (1 # 2))) * (1 # 100).
Proof. reflexivity. Qed.

Lemma round2_upper x : round2 x <= x + (1 # 200).
Proof.
  rewrite round2_unfold.
  pose proof (Qfloor_le (x * 100 + (1 # 2))) as H.
  lra.
Qed.

Lemma round2_lower x : x - (1 # 200) < round2 x.
Proof.
  rewrite round2_unfold.
  pose proof (Qlt_floor (x * 100 + (1 # 2))) as H.
  rewrite inject_Z_plus in H. change (inject_Z 1) with 1 in H.
  lra.
Qed.

Lemma round2_mono x y : x <= y -> round2 x <= round2 y.
Proof.
  intro H. rewrite !round2_unfold.
  assert (Hz : (Qfloor (x * 100 + (1 # 2)) <= Qfloor (y * 100 + (1 # 2)))%Z)
    by (apply Qfloor_resp_le; lra).
  rewrite Zle_Qle in Hz. lra.
Qed.

Lemma round2_zero : round2 0 == 0.
Proof. reflexivity. Qed.

(** Rounding the two parts of a sum separately moves the total by at most
    one cent. *)
Lemma round2_split x y z :
  x == y + z -> Qabs (round2 x - (round2 y + round2 z)) <= 1 # 100.
Proof.
  intro E.
  pose proof (round2_upper x). pose proof (round2_lower x).
  pose proof (round2_upper y). pose proof (round2_lower y).
  pose proof (round2_upper z). pose proof (round2_lower z).
  set (k := (Math_round (x * 100) - Math_round (y * 100)
             - Math_round (z * 100))%Z).
  assert (Hk : round2 x - (round2 y + round2 z) == inject_Z k * (1 # 100)).
  { unfold k, round2, Z.sub. rewrite !inject_Z_plus, !inject_Z_opp. field. }
  assert (Hlo : - (3 # 2) < inject_Z k) by lra.
  assert (Hhi : inject_Z k < 3 # 2) by lra.
  assert (Hz : (-1 <= k <= 1)%Z).
  { unfold Qlt in Hlo, Hhi. simpl in Hlo, Hhi. lia. }
  rewrite Hk. apply Qabs_Qle_condition.
  destruct Hz as [Hz1 Hz2].
  rewrite Zle_Qle in Hz1, Hz2.
  change (inject_Z (-1)) with (- (1)) in Hz1. change (inject_Z 1) with 1 in Hz2.
  split; lra.
Qed.

Lemma round2_near x : Qabs (round2 x - x) <= 1 # 200.
Proof.
  pose proof (round2_upper x). pose proof (round2_lower x).
  apply Qabs_Qle_condition. split; lra.
Qed.

End Rounding.

(* ------------------------------------------------------------------ *)
(** ** Powers *)
(* ------------------------------------------------------------------ *)

Section AnnuityFacts.
Import Finance Annuity.

Lemma qpow_pos q j : 0 < q -> 0 < qpow q j.
Proof.
  intro Hq. induction j as [|j IH]; simpl; [reflexivity|].
  apply Qmult_lt_0_compat; assumption.
Qed.

Lemma qpow_le_1 q j : 0 <= q -> q <= 1 -> qpow q j <= 1.
Proof.
  intros H0 H1. induction j as [|j IH]; simpl; [apply Qle_refl|].
  assert (0 <= qpow q j).
  { clear IH. induction j; simpl; [discriminate|]. apply Qmult_le_0_compat; assumption. }
  nra.
Qed.

Lemma qpow_ge_1 q j : 1 <= q -> 1 <= qpow q j.
Proof.
  intros H1. induction j as [|j IH]; simpl; [apply Qle_refl|]. nra.
Qed.

Lemma Qpower_qpow q j : q ^ Z.of_nat j == qpow q j.
Proof.
  induction j as [|j IH]; [reflexivity|].
  rewrite Nat2Z.inj_succ, <- Z.add_1_l.
  rewrite Qpower_plus' by lia.
  rewrite IH. simpl. reflexivity.
Qed.

Lemma qpow_inv q j : ~ q == 0 -> qpow q j * qpow (/ q) j == 1.
Proof.
  intro Hq. induction j as [|j IH]; simpl; [reflexivity|].
  transitivity ((q * / q) * (qpow q j * qpow (/ q) j)); [ring|].
  rewrite IH. field. assumption.
Qed.

End AnnuityFacts.

(* ------------------------------------------------------------------ *)
(** ** One schedule, turn by turn *)
(* ------------------------------------------------------------------ *)

Section Schedule.
Import Finance Annuity.

Variables pay r : Q.
Hypothesis pay_nonneg : 0 <= pay.
Hypothesis r_pos : 0 < r.

Lemma growth_discount : (1 + r) * / (1 + r) == 1.
Proof. field. lra. Qed.

Lemma discount_factor_pos : 0 < / (1 + r).
Proof. apply Qinv_lt_0_compat. lra. Qed.

Lemma discount_factor_le_1 : / (1 + r) <= 1.
Proof.
  pose proof growth_discount. pose proof discount_factor_pos. nra.
Qed.

Lemma discount_pos j : 0 < discount r j.
Proof. apply qpow_pos, discount_factor_pos. Qed.

Lemma discount_le_1 j : discount r j <= 1.
Proof.
  apply qpow_le_1; [apply Qlt_le_weak, discount_factor_pos | apply discount_factor_le_1].
Qed.

Lemma discount_succ j : (1 + r) * discount r (S j) == discount r j.
Proof.
  unfold discount. simpl.
  rewrite Qmult_assoc, growth_discount. ring.
Qed.

Lemma discount_mono j : discount r (S j) <= discount r j.
Proof.
  pose proof (discount_succ j). pose proof (discount_pos (S j)). nra.
Qed.

Lemma owed_zero : owed pay r 0 == 0.
Proof. unfold owed, discount. simpl. field. lra. Qed.

Lemma owed_nonneg j : 0 <= owed pay r j.
Proof.
  unfold owed.
  pose proof (discount_le_1 j).
  apply Qle_shift_div_l; [assumption|]. nra.
Qed.

Lemma owed_interest j : pay - owed pay r (S j) * r == pay * discount r (S j).
Proof. unfold owed. field. lra. Qed.

Lemma owed_step j : owed pay r (S j) - pay * discount r (S j) == owed pay r j.
Proof.
  unfold owed. rewrite <- (discount_succ j). field. lra.
Qed.

Lemma owed_clamp j : pay * discount r (S j) <= owed pay r (S j).
Proof.
  pose proof (owed_step j). pose proof (owed_nonneg j). lra.
Qed.

Lemma owed_mono j : owed pay r j <= owed pay r (S j).
Proof.
  pose proof (owed_step j). pose proof (discount_pos (S j)). nra.
Qed.

(** One turn of the loop from a balance of [owed (S j)]. *)
Lemma loop_step j b :
  b == owed pay r (S j) ->
  b * r == pay - pay * discount r (S j) /\
  Qmin (pay - b * r) b == pay * discount r (S j) /\
  Qred (Qmax 0 (b - Qmin (pay - b * r) b)) == owed pay r j.
Proof.
  intro Hb.
  assert (Hi : pay - b * r == pay * discount r (S j))
    by (rewrite Hb; apply owed_interest).
  assert (Hm : Qmin (pay - b * r) b == pay * discount r (S j)).
  { rewrite Q.min_l; [exact Hi|]. rewrite Hi, Hb. apply owed_clamp. }
  split; [lra|]. split; [exact Hm|].
  rewrite Qred_correct, Hm, Hb, owed_step.
  apply Q.max_r, owed_nonneg.
Qed.


Lemma amortLoop_cons j i b :
  amortLoop (S j) i pay r b =
  {| month := i;
     payment := round2 pay;
     interest := round2 (b * r);
     principal := round2 (Qmin (pay - b * r) b);
     balance := round2 (Qred (Qmax 0 (b - Qmin (pay - b * r) b))) |}
  :: amortLoop j (i + 1)%Z pay r (Qred (Qmax 0 (b - Qmin (pay - b * r) b))).
Proof. reflexivity. Qed.

(** The last row of a schedule that starts from [owed (S j)] shows a
    balance of zero. *)
Lemma amortLoop_last_balance j : forall i b d,
  b == owed pay r (S j) ->
  balance (last (amortLoop (S j) i pay r b) d) == 0.
Proof.
  induction j as [|j IH]; intros i b d Hb.
  - destruct (loop_step 0 b Hb) as (_ & _ & Hbal).
    rewrite amortLoop_cons. cbn [amortLoop last balance].
    rewrite Hbal, owed_zero. reflexivity.
  - destruct (loop_step (S j) b Hb) as (_ & _ & Hbal).
    rewrite amortLoop_cons.
    set (b' := Qred (Qmax 0 (b - Qmin (pay - b * r) b))) in *.
    set (row := Build_AmortizationRow _ _ _ _ _).
    transitivity (balance (last (amortLoop (S j) (i + 1)%Z pay r b') d)).
    + rewrite (amortLoop_cons j). reflexivity.
    + apply IH, Hbal.
Qed.

(** Every row shows a payment that is the sum of its interest and its
    principal, to the cent. *)
Lemma amortLoop_rows_add_up j : forall i b,
  b == owed pay r j ->
  Forall (fun row =>
            Qabs (payment row - (interest row + principal row)) <= 1 # 100)
         (amortLoop j i pay r b).
Proof.
  induction j as [|j IH]; intros i b Hb; [constructor|].
  destruct (loop_step j b Hb) as (Hint & Hpr & Hbal).
  rewrite amortLoop_cons. constructor.
  - cbn [payment interest principal].
    apply round2_split. lra.
  - apply IH, Hbal.
Qed.

Lemma totalPrincipal_from rows : forall acc,
  fold_left (fun sum row => sum + principal row) rows acc
  == acc + totalPrincipal rows.
Proof.
  unfold totalPrincipal.
  induction rows as [|row rows IH]; intro acc; simpl; [ring|].
  rewrite (IH (acc + principal row)), (IH (0 + principal row)). ring.
Qed.

Lemma totalPrincipal_cons row rows :
  totalPrincipal (row :: rows) == principal row + totalPrincipal rows.
Proof.
  unfold totalPrincipal at 1. simpl. rewrite totalPrincipal_from. ring.
Qed.

(** The principal column adds up to the opening balance, to half a cent
    for every row. *)
Lemma amortLoop_principal_total j : forall i b,
  b == owed pay r j ->
  Qabs (totalPrincipal (amortLoop j i pay r b) - b)
  <= inject_Z (Z.of_nat j) * (1 # 200).
Proof.
  induction j as [|j IH]; intros i b Hb.
  - rewrite owed_zero in Hb. apply Qabs_Qle_condition.
    change (totalPrincipal (amortLoop 0 i pay r b)) with 0.
    change (inject_Z (Z.of_nat 0)) with 0. split; lra.
  - destruct (loop_step j b Hb) as (Hint & Hpr & Hbal).
    rewrite amortLoop_cons, totalPrincipal_cons. cbn [principal].
    set (b' := Qred (Qmax 0 (b - Qmin (pay - b * r) b))) in *.
    specialize (IH (i + 1)%Z b' Hbal).
    apply Qabs_Qle_condition in IH. destruct IH as [IH1 IH2].
    pose proof (round2_upper (Qmin (pay - b * r) b)) as Hu.
    pose proof (round2_lower (Qmin (pay - b * r) b)) as Hl.
    assert (Hsplit : b == Qmin (pay - b * r) b + b').
    { pose proof (owed_step j). lra. }
    rewrite Nat2Z.inj_succ. unfold Z.succ. rewrite inject_Z_plus.
    change (inject_Z 1) with 1.
    apply Qabs_Qle_condition. split; lra.
Qed.

Lemma amortLoop_head j i b :
  b == owed pay r (S j) ->
  exists row rest,
    amortLoop (S j) i pay r b = row :: rest /\
    balance row == round2 (owed pay r j) /\
    interest row == round2 (pay - pay * discount r (S j)) /\
    principal row == round2 (pay * discount r (S j)).
Proof.
  intro Hb. destruct (loop_step j b Hb) as (Hint & Hpr & Hbal).
  rewrite amortLoop_cons. eexists. eexists. split; [reflexivity|].
  cbn [balance interest principal].
  split; [|split]; apply round2_proper; assumption.
Qed.

(** Down the rows the balance and the interest never rise and the
    principal never falls. *)
Lemma amortLoop_monotone j : forall i b,
  b == owed pay r j ->
  nonIncreasing (map balance (amortLoop j i pay r b)) /\
  nonIncreasing (map interest (amortLoop j i pay r b)) /\
  nonDecreasing (map principal (amortLoop j i pay r b)).
Proof.
  unfold nonIncreasing, nonDecreasing.
  induction j as [|j IH]; intros i b Hb.
  - simpl. repeat split; constructor.
  - destruct (amortLoop_head j i b Hb) as (row & rest & E & Hbal & Hint & Hpr).
    destruct (loop_step j b Hb) as (_ & _ & Hb').
    rewrite amortLoop_cons in E. injection E as Erow Erest.
    rewrite amortLoop_cons.
    set (b' := Qred (Qmax 0 (b - Qmin (pay - b * r) b))) in *.
    destruct (IH (i + 1)%Z b' Hb') as (IHb & IHi & IHp).
    rewrite Erow. cbn [map].
    repeat split; constructor; try assumption.
    all: destruct j as [|j]; [constructor|].
    all: destruct (amortLoop_head j (i + 1)%Z b' Hb')
           as (row' & rest' & E' & Hbal' & Hint' & Hpr').
    all: rewrite E'; cbn [map]; constructor.
    + rewrite Hbal, Hbal'. apply round2_mono, owed_mono.
    + rewrite Hint, Hint'. apply round2_mono.
      pose proof (discount_mono (S j)). nra.
    + rewrite Hpr, Hpr'. apply round2_mono.
      pose proof (discount_mono (S j)). nra.
Qed.

End Schedule.

(* ------------------------------------------------------------------ *)
(** ** The payment of pmt *)
(* ------------------------------------------------------------------ *)

Section PmtFacts.
Import Finance Annuity.

Lemma qpow_gt_1 q j : 1 < q -> 1 < qpow q (S j).
Proof.
  intro Hq. simpl.
  pose proof (qpow_ge_1 q j (Qlt_le_weak _ _ Hq)). nra.
Qed.

Lemma months_succ years :
  (0 < years)%Z -> exists j, Z.to_nat (years * 12) = S j.
Proof.
  intro H. exists (Z.to_nat (years * 12 - 1)). lia.
Qed.

(** With a loan, a term and a positive rate, [pmt] is the annuity
    formula over the number of months. *)
Lemma pmt_annuity rate years P :
  0 < P -> 0 < rate -> (0 < years)%Z ->
  pmt rate years P ==
  P * (rate / 12 * qpow (1 + rate / 12) (Z.to_nat (years * 12)))
  / (qpow (1 + rate / 12) (Z.to_nat (years * 12)) - 1).
Proof.
  intros HP Hrate Hy. unfold pmt.
  assert (E1 : Qle_bool P 0 = false) by (apply Qle_bool_false_iff; assumption).
  assert (E2 : (years <=? 0)%Z = false) by (apply Z.leb_gt; assumption).
  assert (E3 : Qle_bool rate 0 = false) by (apply Qle_bool_false_iff; assumption).
  rewrite E1, E2, E3. cbn [orb].
  rewrite <- (Z2Nat.id (years * 12)) at 1 2 by lia.
  rewrite Qpower_qpow. reflexivity.
Qed.

Lemma pmt_nonpos_principal rate years P : P <= 0 -> pmt rate years P = 0.
Proof.
  intro H. unfold pmt. apply Qle_bool_iff in H. rewrite H. reflexivity.
Qed.

Lemma pmt_nonpos_years rate years P : (years <= 0)%Z -> pmt rate years P = 0.
Proof.
  intro H. unfold pmt. apply Z.leb_le in H. rewrite H, orb_true_r. reflexivity.
Qed.

Lemma pmt_annuity_pos rate years P :
  0 < P -> 0 < rate -> (0 < years)%Z -> 0 < pmt rate years P.
Proof.
  intros HP Hrate Hy. rewrite pmt_annuity by assumption.
  destruct (months_succ years Hy) as [j ->].
  assert (Hr : 0 < rate / 12) by (apply Qlt_shift_div_l; lra).
  pose proof (qpow_gt_1 (1 + rate / 12) j ltac:(lra)) as Hq.
  set (Qn := qpow (1 + rate / 12) (S j)) in *. clearbody Qn.
  set (r := rate / 12) in *. clearbody r.
  apply Qlt_shift_div_l; [lra|].
  assert (0 < r * Qn) by nra. nra.
Qed.

(** The payment of [pmt] pays the principal off in exactly the number of
    months of the term. *)
Lemma pmt_pays_off rate years P :
  0 < P -> 0 < rate -> (0 < years)%Z ->
  P == owed (pmt rate years P) (rate / 12) (Z.to_nat (years * 12)).
Proof.
  intros HP Hrate Hy. unfold owed, discount.
  rewrite pmt_annuity by assumption.
  destruct (months_succ years Hy) as [j ->].
  assert (Hr : 0 < rate / 12) by (apply Qlt_shift_div_l; lra).
  pose proof (qpow_gt_1 (1 + rate / 12) j ltac:(lra)) as Hq.
  pose proof (qpow_inv (1 + rate / 12) (S j) ltac:(lra)) as Hinv.
  set (Qn := qpow (1 + rate / 12) (S j)) in *. clearbody Qn.
  set (Dn := qpow (/ (1 + rate / 12)) (S j)) in *. clearbody Dn.
  set (r := rate / 12) in *. clearbody r.
  transitivity (P * (Qn - Qn * Dn) / (Qn - 1)).
  - rewrite Hinv. field. lra.
  - field. split; lra.
Qed.

End PmtFacts.

(* ------------------------------------------------------------------ *)
(** ** The payment as a function of the rate *)
(* ------------------------------------------------------------------ *)

Section Monotonicity.
Import Finance Annuity.

Lemma qpow_nonneg q j : 0 <= q -> 0 <= qpow q j.
Proof.
  intro Hq. induction j as [|j IH]; simpl; [discriminate|].
  apply Qmult_le_0_compat; assumption.
Qed.

Lemma geomSum_nonneg q j : 0 <= q -> 0 <= geomSum q j.
Proof.
  intro Hq. induction j as [|j IH]; simpl; [discriminate|].
  pose proof (qpow_nonneg q j Hq). lra.
Qed.

Lemma geomSum_pos q j : 0 < q -> 0 < geomSum q (S j).
Proof.
  intro Hq. cbn [geomSum].
  pose proof (geomSum_nonneg q j (Qlt_le_weak _ _ Hq)).
  pose proof (qpow_pos q j Hq). lra.
Qed.

(** [q^j - 1 = (q - 1) (1 + q + ... + q^(j-1))]. *)
Lemma geomSum_closed q j : qpow q j - 1 == (q - 1) * geomSum q j.
Proof.
  induction j as [|j IH]; cbn [qpow geomSum]; [ring|].
  transitivity ((qpow q j - 1) + (q - 1) * qpow q j); [ring|].
  rewrite IH. ring.
Qed.

(** The cross-multiplied comparison of [q^j / geomSum q j] at two bases. *)
Lemma geomSum_cross q1 q2 j :
  0 < q1 -> q1 < q2 ->
  qpow q1 j * geomSum q2 j <= qpow q2 j * geomSum q1 j.
Proof.
  intros H1 H12. induction j as [|j IH]; cbn [qpow geomSum]; [lra|].
  assert (Hq1 : 0 < qpow q1 j) by (apply qpow_pos; assumption).
  assert (Hq2 : 0 < qpow q2 j) by (apply qpow_pos; lra).
  assert (Hg1 : 0 <= geomSum q1 j) by (apply geomSum_nonneg; lra).
  assert (Hg2 : 0 <= geomSum q2 j) by (apply geomSum_nonneg; lra).
  set (a1 := qpow q1 j) in *. set (a2 := qpow q2 j) in *.
  set (g1 := geomSum q1 j) in *. set (g2 := geomSum q2 j) in *.
  clearbody a1 a2 g1 g2.
  assert (HB : 0 <= a1 * g2) by (apply Qmult_le_0_compat; lra).
  assert (HP : 0 < a1 * a2) by (apply Qmult_lt_0_compat; assumption).
  set (A := a2 * g1) in *. set (B := a1 * g2) in *. set (C := a1 * a2) in *.
  assert (E1 : q1 * a1 * (g2 + a2) == q1 * B + q1 * C) by (unfold B, C; ring).
  assert (E2 : q2 * a2 * (g1 + a1) == q2 * A + q2 * C) by (unfold A, C; ring).
  rewrite E1, E2. clearbody A B C. nra.
Qed.

Lemma geomSum_cross_strict q1 q2 j :
  0 < q1 -> q1 < q2 ->
  qpow q1 (S j) * geomSum q2 (S j) < qpow q2 (S j) * geomSum q1 (S j).
Proof.
  intros H1 H12.
  pose proof (geomSum_cross q1 q2 j H1 H12) as IH.
  assert (Hq1 : 0 < qpow q1 j) by (apply qpow_pos; assumption).
  assert (Hq2 : 0 < qpow q2 j) by (apply qpow_pos; lra).
  assert (Hg1 : 0 <= geomSum q1 j) by (apply geomSum_nonneg; lra).
  assert (Hg2 : 0 <= geomSum q2 j) by (apply geomSum_nonneg; lra).
  cbn [qpow geomSum].
  set (a1 := qpow q1 j) in *. set (a2 := qpow q2 j) in *.
  set (g1 := geomSum q1 j) in *. set (g2 := geomSum q2 j) in *.
  clearbody a1 a2 g1 g2.
  assert (HB : 0 <= a1 * g2) by (apply Qmult_le_0_compat; lra).
  assert (HP : 0 < a1 * a2) by (apply Qmult_lt_0_compat; assumption).
  set (A := a2 * g1) in *. set (B := a1 * g2) in *. set (C := a1 * a2) in *.
  assert (E1 : q1 * a1 * (g2 + a2) == q1 * B + q1 * C) by (unfold B, C; ring).
  assert (E2 : q2 * a2 * (g1 + a1) == q2 * A + q2 * C) by (unfold A, C; ring).
  rewrite E1, E2. clearbody A B C. nra.
Qed.

Lemma Qdiv_lt_cross a b c d :
  0 < b -> 0 < d -> a * d < c * b -> a / b < c / d.
Proof.
  intros Hb Hd H.
  apply Qlt_shift_div_l; [assumption|].
  setoid_replace (a / b * d) with (a * d / b) by (field; lra).
  apply Qlt_shift_div_r; assumption.
Qed.

(** [pmt] written with the geometric sum instead of a division by
    [q^n - 1]. *)
Lemma pmt_geomSum rate years P j :
  0 < P -> 0 < rate -> (0 < years)%Z -> Z.to_nat (years * 12) = S j ->
  pmt rate years P ==
  P * qpow (1 + rate / 12) (S j) / geomSum (1 + rate / 12) (S j).
Proof.
  intros HP Hrate Hy Ej.
  rewrite pmt_annuity by assumption. rewrite Ej.
  assert (Hr : 0 < rate / 12) by (apply Qlt_shift_div_l; lra).
  pose proof (geomSum_closed (1 + rate / 12) (S j)) as Hc.
  pose proof (geomSum_pos (1 + rate / 12) j ltac:(lra)) as Hg.
  set (Qn := qpow (1 + rate / 12) (S j)) in *. clearbody Qn.
  set (G := geomSum (1 + rate / 12) (S j)) in *. clearbody G.
  set (r := rate / 12) in *. clearbody r.
  assert (E : Qn - 1 == r * G) by (rewrite Hc; ring).
  rewrite E. field. split; lra.
Qed.

End Monotonicity.

(* ------------------------------------------------------------------ *)
(** ** The schedule of buildAmort and the cases of pmt *)
(* ------------------------------------------------------------------ *)

Section ScheduleAndPayment.
Import Finance Annuity.

Lemma amortLoop_length n : forall i pay r b,
  List.length (amortLoop n i pay r b) = n.
Proof.
  induction n as [|n IH]; intros i pay r b; simpl; [reflexivity|].
  now rewrite IH.
Qed.

(** What [buildAmort] starts its loop from: a payment that is not
    negative and an opening balance that it pays off in the months of the
    term. *)
Lemma buildAmort_start P rate years :
  0 <= P -> 0 < rate -> (0 < years)%Z ->
  0 <= pmt rate years P /\
  P == owed (pmt rate years P) (rate / 12) (Z.to_nat (years * 12)).
Proof.
  intros HP Hrate Hy.
  destruct (Qlt_le_dec 0 P) as [Hpos|Hle].
  - split; [apply Qlt_le_weak, pmt_annuity_pos | apply pmt_pays_off];
      assumption.
  - rewrite (pmt_nonpos_principal rate years P Hle).
    split; [apply Qle_refl|].
    assert (HP0 : P == 0) by (apply Qle_antisym; assumption).
    rewrite HP0. unfold owed. field.
    lra.
Qed.

(** The schedule when nothing but the four printed fields is rounded.
    On exact rationals, for a positive principal, annual rate and term,
    the schedule has twelve rows for every year of the term; it is not
    empty and its last row shows a balance of zero; the principal column
    adds up to the principal to within half a cent for every row; and in
    every row the payment is the interest plus the principal to within
    one cent.  On doubles the balance need not come down at all, as the
    part on doubles shows. *)
Theorem buildAmort_schedule_exact (P rate : Q) (years : Z) :
  0 < P -> 0 < rate -> (0 < years)%Z ->
  let rows := buildAmort P rate years in
  (Z.of_nat (List.length rows) = years * 12)%Z /\
  (rows <> [] /\ forall d, balance (last rows d) == 0) /\
  Qabs (totalPrincipal rows - P) <= inject_Z (years * 12) * (1 # 200) /\
  Forall (fun row =>
            Qabs (payment row - (interest row + principal row)) <= 1 # 100)
         rows.
Proof.
  intros HP Hrate Hy rows. subst rows. unfold buildAmort.
  assert (Hr : 0 < rate / 12) by (apply Qlt_shift_div_l; lra).
  destruct (buildAmort_start P rate years (Qlt_le_weak _ _ HP) Hrate Hy)
    as [Hpay Hown].
  split; [|split; [split|split]].
  - rewrite amortLoop_length. lia.
  - destruct (months_succ years Hy) as [j ->]. discriminate.
  - intro d. destruct (months_succ years Hy) as [j Ej].
    rewrite Ej in *.
    apply (amortLoop_last_balance _ _ Hpay Hr). exact Hown.
  - rewrite <- (Z2Nat.id (years * 12)) at 2 by lia.
    apply (amortLoop_principal_total _ _ Hpay Hr). exact Hown.
  - apply (amortLoop_rows_add_up _ _ Hpay Hr). exact Hown.
Qed.

Lemma buildAmort_schedule_exact_witness :
  let rows := buildAmort 1000 (12 # 100) 1 in
  (Z.of_nat (List.length rows) = 1 * 12)%Z /\
  (rows <> [] /\ forall d, balance (last rows d) == 0) /\
  Qabs (totalPrincipal rows - 1000) <= inject_Z (1 * 12) * (1 # 200) /\
  Forall (fun row =>
            Qabs (payment row - (interest row + principal row)) <= 1 # 100)
         rows.
Proof.
  apply (buildAmort_schedule_exact 1000 (12 # 100) 1); reflexivity.
Defined.

(** C2. [pmt] is 0 without a loan or a term; the principal divided by the
    number of months when the rate is not positive; and the annuity
    formula otherwise.  120000 at no interest over ten years is 1000 a
    month. *)
Theorem pmt_cases (rate : Q) (years : Z) (P : Q) :
  (P <= 0 \/ (years <= 0)%Z -> pmt rate years P = 0) /\
  (0 < P -> (0 < years)%Z -> rate <= 0 ->
   pmt rate years P = P / inject_Z (years * 12)) /\
  (0 < P -> (0 < years)%Z -> 0 < rate ->
   pmt rate years P =
   (P * (rate / 12 * (1 + rate / 12) ^ (years * 12)))
   / ((1 + rate / 12) ^ (years * 12) - 1)) /\
  pmt 0 10 120000 == 1000.
Proof.
  repeat split.
  - intros [H|H]; [apply pmt_nonpos_principal | apply pmt_nonpos_years];
      assumption.
  - intros HP Hy Hrate. unfold pmt.
    apply Qle_bool_false_iff in HP. apply Z.leb_gt in Hy.
    apply Qle_bool_iff in Hrate. now rewrite HP, Hy, Hrate.
  - intros HP Hy Hrate. unfold pmt.
    apply Qle_bool_false_iff in HP. apply Z.leb_gt in Hy.
    apply Qle_bool_false_iff in Hrate. now rewrite HP, Hy, Hrate.
Qed.

Lemma pmt_cases_witness :
  pmt (4 # 100) 20 0 = 0 /\
  pmt (4 # 100) 0 100000 = 0 /\
  pmt 0 10 120000 = 120000 / inject_Z (10 * 12) /\
  pmt (4 # 100) 20 100000 =
  (100000 * ((4 # 100) / 12 * (1 + (4 # 100) / 12) ^ (20 * 12)))
  / ((1 + (4 # 100) / 12) ^ (20 * 12) - 1).
Proof.
  split; [|split; [|split]].
  - destruct (pmt_cases (4 # 100) 20 0) as (H & _). apply H. left. discriminate.
  - destruct (pmt_cases (4 # 100) 0 100000) as (H & _). apply H. right.
    discriminate.
  - destruct (pmt_cases 0 10 120000) as (_ & H & _).
    apply H; [reflexivity | reflexivity | discriminate].
  - destruct (pmt_cases (4 # 100) 20 100000) as (_ & _ & H & _).
    apply H; reflexivity.
Defined.

End ScheduleAndPayment.

(* ------------------------------------------------------------------ *)
(** ** Degenerate loans, monotone columns, monotone payment *)
(* ------------------------------------------------------------------ *)

Section DegenerateAndMonotone.
Import Finance Annuity.

Lemma buildAmort_no_term P rate years :
  (years <= 0)%Z -> buildAmort P rate years = [].
Proof.
  intro H. unfold buildAmort.
  replace (Z.to_nat (years * 12)) with O by lia. reflexivity.
Qed.

Lemma amortLoop_zero n : forall i r b,
  b == 0 -> Forall zeroRow (amortLoop n i 0 r b).
Proof.
  induction n as [|n IH]; intros i r b Hb; [constructor|].
  assert (Hint : b * r == 0) by (rewrite Hb; ring).
  assert (Hpr : Qmin (0 - b * r) b == 0).
  { rewrite Q.min_l; lra. }
  assert (Hbal : Qred (Qmax 0 (b - Qmin (0 - b * r) b)) == 0).
  { rewrite Qred_correct, Q.max_l; lra. }
  cbn [amortLoop]. constructor.
  - unfold zeroRow. cbn [payment interest principal balance].
    split; [|split; [|split]];
      [reflexivity | rewrite Hint | rewrite Hpr | rewrite Hbal]; reflexivity.
  - apply IH, Hbal.
Qed.

(** C7, as the code has it.  Without a term there are no rows.  Without a
    principal but with a term there are twelve rows for every year, and
    every amount in them is zero. *)
Theorem buildAmort_degenerate (P rate : Q) (years : Z) :
  (years = 0%Z -> buildAmort P rate years = []) /\
  (P == 0 -> (0 < years)%Z ->
   (Z.of_nat (List.length (buildAmort P rate years)) = years * 12)%Z /\
   Forall zeroRow (buildAmort P rate years)).
Proof.
  split.
  - intro H. apply buildAmort_no_term. lia.
  - intros HP Hy. unfold buildAmort. split.
    + rewrite amortLoop_length. lia.
    + rewrite pmt_nonpos_principal by lra. apply amortLoop_zero, HP.
Qed.

Lemma buildAmort_degenerate_witness :
  buildAmort 100000 (4 # 100) 0 = [] /\
  (Z.of_nat (List.length (buildAmort 0 (4 # 100) 1)) = 1 * 12)%Z /\
  Forall zeroRow (buildAmort 0 (4 # 100) 1).
Proof.
  split.
  - destruct (buildAmort_degenerate 100000 (4 # 100) 0) as [H _].
    apply H. reflexivity.
  - destruct (buildAmort_degenerate 0 (4 # 100) 1) as [_ H].
    apply H; reflexivity.
Defined.

(** C7, as the specification has it, fails: the schedule for no
    principal over one year has twelve rows. *)
Lemma buildAmort_zero_principal_not_empty :
  List.length (buildAmort 0 (4 # 100) 1) = 12%nat.
Proof. unfold buildAmort. rewrite amortLoop_length. reflexivity. Qed.

(** The columns when nothing but the printed fields is rounded.  On
    exact rationals, for a principal that is not negative and a positive
    rate, down the rows of the schedule the balance never rises, the
    interest never rises and the principal never falls.  On doubles the
    principal column can fall, as the part on doubles shows. *)
Theorem buildAmort_monotone_exact (P rate : Q) (years : Z) :
  0 <= P -> 0 < rate ->
  nonIncreasing (map balance (buildAmort P rate years)) /\
  nonIncreasing (map interest (buildAmort P rate years)) /\
  nonDecreasing (map principal (buildAmort P rate years)).
Proof.
  intros HP Hrate.
  destruct (Z_lt_le_dec 0 years) as [Hy|Hy].
  - assert (Hr : 0 < rate / 12) by (apply Qlt_shift_div_l; lra).
    destruct (buildAmort_start P rate years HP Hrate Hy) as [Hpay Hown].
    unfold buildAmort.
    apply (amortLoop_monotone _ _ Hpay Hr). exact Hown.
  - rewrite buildAmort_no_term by assumption.
    repeat split; constructor.
Qed.

Lemma buildAmort_monotone_exact_witness :
  nonIncreasing (map balance (buildAmort 1000 (12 # 100) 1)) /\
  nonIncreasing (map interest (buildAmort 1000 (12 # 100) 1)) /\
  nonDecreasing (map principal (buildAmort 1000 (12 # 100) 1)).
Proof.
  apply (buildAmort_monotone_exact 1000 (12 # 100) 1); [discriminate | reflexivity].
Defined.

(** The annuity formula on exact rationals.  With a positive rate and
    term, a larger principal gives a larger payment; with a positive
    principal and term, a larger positive rate gives a larger payment.
    On doubles a larger rate can give a smaller payment, as the part on
    doubles shows. *)
Theorem pmt_strictly_increasing_exact :
  (forall rate years P1 P2,
      0 < rate -> (0 < years)%Z -> 0 < P1 -> P1 < P2 ->
      pmt rate years P1 < pmt rate years P2) /\
  (forall P years rate1 rate2,
      0 < P -> (0 < years)%Z -> 0 < rate1 -> rate1 < rate2 ->
      pmt rate1 years P < pmt rate2 years P).
Proof.
  split.
  - intros rate years P1 P2 Hrate Hy HP1 HP12.
    destruct (months_succ years Hy) as [j Ej].
    rewrite (pmt_geomSum rate years P1 j), (pmt_geomSum rate years P2 j)
      by (assumption || lra).
    assert (Hr : 0 < rate / 12) by (apply Qlt_shift_div_l; lra).
    pose proof (geomSum_pos (1 + rate / 12) j ltac:(lra)) as Hg.
    pose proof (qpow_pos (1 + rate / 12) (S j) ltac:(lra)) as Hq.
    set (Qn := qpow (1 + rate / 12) (S j)) in *. clearbody Qn.
    set (G := geomSum (1 + rate / 12) (S j)) in *. clearbody G.
    apply Qdiv_lt_cross; try assumption.
    assert (0 < Qn * G) by (apply Qmult_lt_0_compat; assumption).
    nra.
  - intros P years rate1 rate2 HP Hy H1 H12.
    destruct (months_succ years Hy) as [j Ej].
    rewrite (pmt_geomSum rate1 years P j), (pmt_geomSum rate2 years P j)
      by (assumption || lra).
    assert (Hr1 : 0 < rate1 / 12) by (apply Qlt_shift_div_l; lra).
    assert (Hr12 : rate1 / 12 < rate2 / 12).
    { apply Qmult_lt_compat_r; [reflexivity | assumption]. }
    pose proof (geomSum_pos (1 + rate1 / 12) j ltac:(lra)) as Hg1.
    pose proof (geomSum_pos (1 + rate2 / 12) j ltac:(lra)) as Hg2.
    pose proof (geomSum_cross_strict (1 + rate1 / 12) (1 + rate2 / 12) j
                  ltac:(lra) ltac:(lra)) as Hc.
    set (Q1 := qpow (1 + rate1 / 12) (S j)) in *. clearbody Q1.
    set (Q2 := qpow (1 + rate2 / 12) (S j)) in *. clearbody Q2.
    set (G1 := geomSum (1 + rate1 / 12) (S j)) in *. clearbody G1.
    set (G2 := geomSum (1 + rate2 / 12) (S j)) in *. clearbody G2.
    apply Qdiv_lt_cross; try assumption.
    setoid_replace (P * Q1 * G2) with (P * (Q1 * G2)) by ring.
    setoid_replace (P * Q2 * G1) with (P * (Q2 * G1)) by ring.
    apply Qmult_lt_l; assumption.
Qed.

Lemma pmt_strictly_increasing_exact_witness :
  pmt (4 # 100) 20 100000 < pmt (4 # 100) 20 200000 /\
  pmt (3 # 100) 20 100000 < pmt (4 # 100) 20 100000.
Proof.
  destruct pmt_strictly_increasing_exact as [Hprincipal Hrate].
  split; [apply Hprincipal | apply Hrate]; reflexivity.
Defined.

End DegenerateAndMonotone.

(* ------------------------------------------------------------------ *)
(** ** The affordability banner *)
(* ------------------------------------------------------------------ *)

Section CardsClaims.
Import Finance Cards.

(** The three flags of the banner are the three classes. *)
Lemma affordability_flags s :
  (hasIssues s = true <-> affordability s = BAD) /\
  (needsAttention s = true <-> affordability s = WARN) /\
  (looksGood s = true <-> affordability s = GOOD).
Proof.
  unfold affordability, looksGood, needsAttention.
  destruct (hasIssues s), (isDTIAmber s); simpl;
    repeat split; intros; congruence.
Qed.

Lemma hasIssues_iff s :
  hasIssues s = true <->
  0 < fundingGap s \/ 55 < dtiPct s \/ netAfter s < 0.
Proof.
  unfold hasIssues, isFundingGapBad, isDTIRed, isNetAfterBad.
  rewrite !orb_true_iff, !Qlt_bool_iff. tauto.
Qed.

Lemma hasIssues_false_iff s :
  hasIssues s = false <->
  fundingGap s <= 0 /\ dtiPct s <= 55 /\ 0 <= netAfter s.
Proof.
  unfold hasIssues, isFundingGapBad, isDTIRed, isNetAfterBad, Qlt_bool.
  rewrite !orb_false_iff, !negb_false_iff, !Qle_bool_iff. tauto.
Qed.

Lemma isDTIAmber_false_iff s : isDTIAmber s = false <-> dtiPct s <= 45.
Proof.
  unfold isDTIAmber, Qlt_bool. rewrite negb_false_iff. apply Qle_bool_iff.
Qed.

Lemma needsAttention_iff s :
  needsAttention s = true <->
  fundingGap s <= 0 /\ 45 < dtiPct s /\ dtiPct s <= 55 /\ 0 <= netAfter s.
Proof.
  unfold needsAttention.
  rewrite andb_true_iff, negb_true_iff, hasIssues_false_iff.
  unfold isDTIAmber. rewrite Qlt_bool_iff. tauto.
Qed.

Lemma looksGood_iff s :
  looksGood s = true <->
  fundingGap s <= 0 /\ dtiPct s <= 45 /\ 0 <= netAfter s.
Proof.
  unfold looksGood, needsAttention.
  rewrite andb_true_iff, !negb_true_iff, andb_false_iff, negb_false_iff.
  rewrite hasIssues_false_iff, hasIssues_iff, isDTIAmber_false_iff.
  split.
  - intros [(Hg & Hd & Hn) [H|H]]; repeat split; try assumption.
    destruct H as [H|[H|H]]; lra.
  - intros (Hg & Hd & Hn). split; [|right; assumption].
    repeat split; try assumption. lra.
Qed.

(** C5.  The banner misses the rule at a net of exactly zero: a summary
    with no shortfall, a debt ratio of 40 percent and nothing left over
    each month is classified GOOD although its net is not positive. *)
Lemma affordability_good_at_zero_net :
  let s := {| regTax := 0; renoWithCont := 0; totalProject := 0;
              totalSources := 0; fundingGap := 0; bankMonthly := 0;
              familyMonthly := 0; totalDebt := 0; dtiPct := 40;
              netAfter := 0 |} in
  affordability s = GOOD /\
  ~ (fundingGap s <= 0 /\ dtiPct s <= 45 /\ 0 < netAfter s).
Proof.
  split; [reflexivity|]. intros (_ & _ & H). discriminate H.
Qed.

(** What the banner computes.  GOOD exactly when there is no shortfall,
    the debt ratio is at most 45 and the net is not negative; BAD exactly
    when there is a shortfall, or the debt ratio is above 55, or the net
    is negative; WARN exactly in the remaining case, which is no
    shortfall, a debt ratio above 45 and at most 55, and a net that is
    not negative. *)
Lemma affordability_computed (s : Summary) :
  (affordability s = GOOD <->
   fundingGap s <= 0 /\ dtiPct s <= 45 /\ 0 <= netAfter s) /\
  (affordability s = BAD <->
   0 < fundingGap s \/ 55 < dtiPct s \/ netAfter s < 0) /\
  (affordability s = WARN <->
   affordability s <> GOOD /\ affordability s <> BAD) /\
  (affordability s = WARN <->
   fundingGap s <= 0 /\ 45 < dtiPct s /\ dtiPct s <= 55 /\ 0 <= netAfter s).
Proof.
  destruct (affordability_flags s) as (HB & HW & HG).
  split; [|split; [|split]].
  - rewrite <- HG. apply looksGood_iff.
  - rewrite <- HB. apply hasIssues_iff.
  - destruct (affordability s); split;
      solve [ congruence | intros [? ?]; congruence
            | intros _; split; congruence ].
  - rewrite <- HW. apply needsAttention_iff.
Qed.

End CardsClaims.

(* ------------------------------------------------------------------ *)
(** ** The overall risk *)
(* ------------------------------------------------------------------ *)

Section AdvisorClaims.
Import Finance Advisor.

(** The middle scenario that [generateScenarios] builds. *)
Lemma generateScenarios_realistic inputs summary :
  nth_error (generateScenarios inputs summary) 1 =
  Some (calculateScenario "Realistisch" (bankRatePct inputs) 0
          (netIncomeMonthly inputs) inputs (Finance.familyMonthly summary)).
Proof. reflexivity. Qed.

Lemma generateScenarios_shape inputs summary :
  map name (generateScenarios inputs summary)
  = ["Optimistisch"; "Realistisch"; "Conservatief"]%string /\
  map incomeDelta (generateScenarios inputs summary) = [10; 0; -10]%Z.
Proof. split; reflexivity. Qed.

(** C6. The analysis always returns.  With a shortfall its colour is red
    and its headline the shortfall one, whatever the realistic scenario
    says; without one, colour and headline are those of the tier of the
    realistic scenario, the middle one of the three. *)
Theorem analyzeFinancials_overall_risk
    (inputs : FinancialInputs) (summary : Summary) :
  exists analysis realistic,
    analyzeFinancials inputs summary = Some analysis /\
    nth_error (scenarios analysis) 1 = Some realistic /\
    realistic =
      calculateScenario "Realistisch" (bankRatePct inputs) 0
        (netIncomeMonthly inputs) inputs (Finance.familyMonthly summary) /\
    (0 < fundingGap summary ->
     riskColor analysis = red /\
     riskLevel analysis = HoogRisicoTekort (Math_round (fundingGap summary)))
    /\
    (fundingGap summary <= 0 ->
     riskColor analysis = tierColor (risk realistic) /\
     riskLevel analysis =
       match risk realistic with
       | Hoog => HoogRisicoDTI
       | Gemiddeld => GemiddeldRisico
       | Laag => LaagRisico
       end).
Proof.
  set (realistic :=
         calculateScenario "Realistisch" (bankRatePct inputs) 0
           (netIncomeMonthly inputs) inputs (Finance.familyMonthly summary)).
  unfold analyzeFinancials, assessOverallRisk.
  rewrite generateScenarios_realistic. fold realistic.
  destruct (Qlt_bool 0 (fundingGap summary)) eqn:Egap.
  - apply Qlt_bool_iff in Egap.
    eexists. exists realistic. split; [reflexivity|].
    cbn [scenarios riskColor riskLevel].
    split; [apply generateScenarios_realistic|].
    split; [reflexivity|]. split.
    + intros _. split; reflexivity.
    + intro Hle. exfalso. apply (Qlt_not_le _ _ Egap Hle).
  - assert (Hle : fundingGap summary <= 0).
    { unfold Qlt_bool in Egap. apply negb_false_iff in Egap.
      apply Qle_bool_iff; assumption. }
    destruct (risk realistic) eqn:Erisk.
    all: eexists; exists realistic; split; [reflexivity|].
    all: cbn [scenarios riskColor riskLevel].
    all: split; [apply generateScenarios_realistic|].
    all: split; [reflexivity|]; split.
    all: try (intro Hgap; exfalso; apply (Qlt_not_le _ _ Hgap Hle)).
    all: intros _; rewrite Erisk; split; reflexivity.
Qed.

Lemma analyzeFinancials_overall_risk_witness :
  let inputs :=
    {| purchasePrice := 700000; registrationRatePct := 2;
       notaryFees := 5000; renovationBudget := 450000;
       contingencyPct := 12; ownCash := 30000; cryptoNet := 0;
       familyLoanAmount := 200000; familyLoanRatePct := 3 # 2;
       familyLoanTermYears := 1; bankLoanAmount := 850000;
       bankRatePct := 4; bankTermYears := 1;
       netIncomeMonthly := 10500; otherFixedCostsMonthly := 1500;
       airbnbIncome := 800; useAirbnbIncome := true;
       businessUsePct := 15; projectName := "Brasschaat Villa Plan";
       reportNotes := "" |} in
  let summary :=
    {| regTax := 14000; renoWithCont := 504000; totalProject := 1223000;
       totalSources := 1080000; fundingGap := 143000;
       Finance.bankMonthly := 0; Finance.familyMonthly := 0;
       Finance.totalDebt := 0; Finance.dtiPct := 0; netAfter := 9800 |} in
  exists analysis,
    analyzeFinancials inputs summary = Some analysis /\
    riskColor analysis = red.
Proof.
  intros inputs summary.
  destruct (analyzeFinancials_overall_risk inputs summary)
    as (analysis & realistic & Hrun & _ & _ & Hgap & _).
  exists analysis. split; [exact Hrun|].
  apply Hgap. reflexivity.
Defined.

End AdvisorClaims.

(* ------------------------------------------------------------------ *)
(** ** The grid, for any arithmetic *)
(* ------------------------------------------------------------------ *)

Section GridFacts.
Import Sensitivity.

Context {num : Type}.
Variable ops : NumberOps num.
Variable pmt : num -> Z -> num -> num.
Variable round2 : num -> num.
Variable config : SensitivityConfig num.
Variable bankTermYears : Z.
Variable familyMonthly : num.
Variable netIncomeMonthly : num.

#[local] Abbreviation rateLoop' :=
  (rateLoop ops pmt round2 config bankTermYears familyMonthly netIncomeMonthly).
#[local] Abbreviation amountLoop' :=
  (amountLoop ops pmt round2 config bankTermYears familyMonthly
     netIncomeMonthly).
#[local] Abbreviation cellAt' :=
  (cellAt ops pmt round2 bankTermYears familyMonthly netIncomeMonthly).

(** The rates of a row depend on the rate the inner loop starts from, not
    on the amount of the row nor on the fuel that was left. *)
Lemma rateLoop_rates fuel1 : forall fuel2 amount1 amount2 r row1 row2,
  rateLoop' fuel1 amount1 r = Some row1 ->
  rateLoop' fuel2 amount2 r = Some row2 ->
  map rate row1 = map rate row2.
Proof.
  induction fuel1 as [|fuel1 IH]; intros fuel2 a1 a2 r row1 row2 H1 H2;
    [discriminate|].
  destruct fuel2 as [|fuel2]; [discriminate|].
  cbn [rateLoop] in H1, H2.
  destruct (n_leb ops r (maxRate config)).
  - destruct (rateLoop' fuel1 a1 _) as [rest1|] eqn:E1; [|discriminate].
    destruct (rateLoop' fuel2 a2 _) as [rest2|] eqn:E2; [|discriminate].
    injection H1 as <-. injection H2 as <-.
    cbn [map cellAt rate]. f_equal. exact (IH _ _ _ _ _ _ E1 E2).
  - injection H1 as <-. injection H2 as <-. reflexivity.
Qed.

(** Every row of a grid is a run of the inner loop from [minRate]. *)
Lemma amountLoop_rows fuel : forall amount grid,
  amountLoop' fuel amount = Some grid ->
  Forall (fun row => exists fuel' amount',
                       rateLoop' fuel' amount' (minRate config) = Some row)
         grid.
Proof.
  induction fuel as [|fuel IH]; intros amount grid H; [discriminate|].
  cbn [amountLoop] in H.
  destruct (n_leb ops amount (maxAmount config)).
  - destruct (rateLoop' fuel amount _) as [row|] eqn:Erow; [|discriminate].
    destruct (amountLoop' fuel _) as [rest|] eqn:Erest; [|discriminate].
    injection H as <-. constructor.
    + exists fuel, amount. exact Erow.
    + exact (IH _ _ Erest).
  - injection H as <-. constructor.
Qed.

(** C10. When the generator returns, every row of the grid carries the
    rates that [getRates] reads off the first row, and so has as many
    cells as there are rates. *)
Theorem grid_rectangular (fuel : nat)
    (grid : list (list (SensitivityCell num))) :
  generateSensitivityGrid ops pmt round2 config bankTermYears familyMonthly
    netIncomeMonthly fuel = Some grid ->
  Forall (fun row =>
            map rate row = getRates grid /\
            List.length row = List.length (getRates grid))
         grid.
Proof.
  intro H. apply amountLoop_rows in H.
  destruct grid as [|first rest]; [constructor|].
  cbn [getRates].
  pose proof (Forall_inv H) as (fuel1 & amount1 & Hfirst).
  eapply Forall_impl; [|exact H].
  intros row (fuel' & amount' & Hrow). cbn beta.
  assert (E : map rate row = map rate first)
    by exact (rateLoop_rates _ _ _ _ _ _ _ Hrow Hfirst).
  split; [exact E|].
  rewrite <- E. symmetry. apply length_map.
Qed.

Lemma sweep_fuel_mono hi step fuel : forall fuel' x l,
  sweep ops hi step fuel x = Some l -> (fuel <= fuel')%nat ->
  sweep ops hi step fuel' x = Some l.
Proof.
  induction fuel as [|fuel IH]; intros fuel' x l H Hle; [discriminate|].
  destruct fuel' as [|fuel']; [lia|].
  cbn [sweep] in *.
  destruct (n_leb ops x hi); [|exact H].
  destruct (sweep ops hi step fuel _) as [rest|] eqn:E; [|discriminate].
  rewrite (IH fuel' _ rest E) by lia. exact H.
Qed.

(** The inner loop maps the body over the rates it sweeps. *)
Lemma rateLoop_sweep fuel : forall amount r,
  rateLoop' fuel amount r =
  option_map (map (cellAt' amount))
    (sweep ops (maxRate config) (stepRate config) fuel r).
Proof.
  induction fuel as [|fuel IH]; intros amount r; [reflexivity|].
  cbn [rateLoop sweep].
  destruct (n_leb ops r (maxRate config)); [|reflexivity].
  rewrite IH.
  destruct (sweep ops (maxRate config) (stepRate config) fuel _);
    reflexivity.
Qed.

(** When both sweeps end, the grid is their product: a row for every
    amount, a cell in it for every rate. *)
Lemma grid_product fuelA : forall fuelR amount amounts rates,
  sweep ops (maxAmount config) (stepAmount config) fuelA amount
  = Some amounts ->
  sweep ops (maxRate config) (stepRate config) fuelR (minRate config)
  = Some rates ->
  forall fuel, (fuelA + fuelR <= fuel)%nat ->
  amountLoop' fuel amount
  = Some (map (fun a => map (cellAt' a) rates) amounts).
Proof.
  induction fuelA as [|fuelA IH];
    intros fuelR amount amounts rates HA HR fuel Hfuel; [discriminate|].
  destruct fuel as [|fuel]; [lia|].
  cbn [sweep] in HA. cbn [amountLoop].
  destruct (n_leb ops amount (maxAmount config)).
  - destruct (sweep ops _ _ fuelA _) as [rest|] eqn:E; [|discriminate].
    injection HA as <-.
    rewrite rateLoop_sweep.
    rewrite (sweep_fuel_mono _ _ fuelR fuel _ rates HR) by lia.
    cbn [option_map].
    rewrite (IH fuelR _ rest rates E HR fuel) by lia.
    reflexivity.
  - injection HA as <-. reflexivity.
Qed.

End GridFacts.

Lemma grid_rectangular_witness :
  exists grid,
    Sensitivity.generateSensitivityGridQ Sensitivity.testConfig 1 0 10000 10
    = Some grid /\
    Forall (fun row =>
              map Sensitivity.rate row = Sensitivity.getRates grid /\
              List.length row = List.length (Sensitivity.getRates grid))
           grid.
Proof.
  eexists. split; [reflexivity|].
  apply (grid_rectangular Sensitivity.QOps Finance.pmt Finance.round2
           Sensitivity.testConfig 1 0 10000 10).
  reflexivity.
Defined.

(* ------------------------------------------------------------------ *)
(** ** Sweeps on exact rationals *)
(* ------------------------------------------------------------------ *)

Section ExactSweep.
Import Sensitivity.

Variables hi step : Q.
Hypothesis step_pos : 0 < step.

Lemma inject_Z_succ n :
  inject_Z (Z.of_nat (S n)) == inject_Z (Z.of_nat n) + 1.
Proof.
  rewrite Nat2Z.inj_succ. unfold Z.succ. rewrite inject_Z_plus. reflexivity.
Qed.

Lemma inject_Z_of_nat_nonneg n : 0 <= inject_Z (Z.of_nat n).
Proof.
  change 0 with (inject_Z 0). rewrite <- Zle_Qle. lia.
Qed.

(** A sweep that stays within [hi] for exactly [n] values returns those
    [n] values, in strictly ascending order. *)
Lemma sweepQ_run n : forall x,
  hi < x + inject_Z (Z.of_nat n) * step ->
  (forall m, n = S m -> x + inject_Z (Z.of_nat m) * step <= hi) ->
  exists l,
    sweep QOps hi step (S n) x = Some l /\
    List.length l = n /\
    Forall (fun y => x <= y /\ y <= hi) l /\
    StronglySorted Qlt l.
Proof.
  induction n as [|n IH]; intros x Hout Hin.
  - exists []. cbn [sweep n_leb QOps].
    assert (E : Qle_bool x hi = false).
    { apply Qle_bool_false_iff. change (inject_Z (Z.of_nat 0)) with 0 in Hout.
      lra. }
    rewrite E. repeat split; constructor.
  - pose proof (Hin n eq_refl) as Hn.
    pose proof (inject_Z_of_nat_nonneg n) as Hn0.
    assert (Hx : x <= hi) by nra.
    rewrite inject_Z_succ in Hout.
    destruct (IH (x + step)) as (l & Hl & Hlen & Hall & Hsorted).
    + lra.
    + intros m ->. rewrite inject_Z_succ in Hn. lra.
    + exists (x :: l).
      change (sweep QOps hi step (S (S n)) x)
        with (if Qle_bool x hi
              then match sweep QOps hi step (S n) (x + step) with
                   | Some rest => Some (x :: rest)
                   | None => None
                   end
              else Some []).
      apply Qle_bool_iff in Hx. rewrite Hx, Hl.
      apply Qle_bool_iff in Hx.
      split; [reflexivity|]. split; [cbn; now rewrite Hlen|]. split.
      * constructor; [split; [apply Qle_refl | assumption]|].
        eapply Forall_impl; [|exact Hall]. cbn beta. intros y [? ?].
        split; lra.
      * constructor; [assumption|].
        eapply Forall_impl; [|exact Hall]. cbn beta. intros y [? ?]. lra.
Qed.

(** On exact rationals a sweep from [lo] up to [hi] has
    [floor ((hi - lo) / step) + 1] values. *)
Lemma sweepQ_count lo :
  lo <= hi ->
  exists l,
    sweep QOps hi step (S (Z.to_nat (sweepCount lo hi step))) lo = Some l /\
    (Z.of_nat (List.length l) = sweepCount lo hi step)%Z /\
    Forall (fun y => lo <= y /\ y <= hi) l /\
    StronglySorted Qlt l.
Proof.
  intro Hlo. unfold sweepCount.
  set (y := (hi - lo) / step).
  assert (Hy : y * step == hi - lo) by (unfold y; field; lra).
  assert (Hy0 : 0 <= y) by (unfold y; apply Qle_shift_div_l; lra).
  pose proof (Qfloor_le y) as Hfl. pose proof (Qlt_floor y) as Hlt.
  assert (Hk : (0 <= Qfloor y)%Z).
  { change 0%Z with (Qfloor 0). apply Qfloor_resp_le, Hy0. }
  set (k := Qfloor y) in *. clearbody k.
  rewrite inject_Z_plus in Hlt. change (inject_Z 1) with 1 in Hlt.
  replace (Z.to_nat (k + 1)) with (S (Z.to_nat k)) by lia.
  destruct (sweepQ_run (S (Z.to_nat k)) lo) as (l & Hl & Hlen & Hall & Hs).
  - rewrite inject_Z_succ, Z2Nat.id by assumption. nra.
  - intros m E. injection E as <-. rewrite Z2Nat.id by assumption. nra.
  - exists l. repeat split; try assumption. lia.
Qed.

(** Without room for a first value the sweep is empty. *)
Lemma sweepQ_empty lo fuel :
  hi < lo -> sweep QOps hi step (S fuel) lo = Some [].
Proof.
  intro H. cbn [sweep n_leb QOps].
  apply Qle_bool_false_iff in H. now rewrite H.
Qed.

End ExactSweep.

Section DivergentSweep.
Import Sensitivity.

(** A step that is not positive never carries the variable past [hi]. *)
Lemma sweepQ_diverges hi step fuel : forall x,
  step <= 0 -> x <= hi -> sweep QOps hi step fuel x = None.
Proof.
  induction fuel as [|fuel IH]; intros x Hstep Hx; [reflexivity|].
  cbn [sweep n_leb n_add QOps].
  pose proof Hx as Hb. apply Qle_bool_iff in Hb. rewrite Hb.
  rewrite IH; [reflexivity | assumption | lra].
Qed.

End DivergentSweep.

(* ------------------------------------------------------------------ *)
(** ** The grid on exact rationals *)
(* ------------------------------------------------------------------ *)

Section GridClaims.
Import Sensitivity.

Variable config : SensitivityConfig Q.
Variable bankTermYears : Z.
Variables familyMonthly netIncomeMonthly : Q.

#[local] Abbreviation cellQ :=
  (cellAt QOps Finance.pmt Finance.round2 bankTermYears familyMonthly
     netIncomeMonthly).

(** On exact rationals, for a configuration with positive steps and its
    bounds in order, the generator returns the product of the two sweeps:
    [floor ((maxAmount - minAmount) / stepAmount) + 1] rows of
    [floor ((maxRate - minRate) / stepRate) + 1] cells, over strictly
    ascending amounts and rates. *)
Theorem grid_dimensions_exact :
  0 < stepAmount config -> 0 < stepRate config ->
  minAmount config <= maxAmount config ->
  minRate config <= maxRate config ->
  exists fuel0 amounts rates,
    (forall fuel, (fuel0 <= fuel)%nat ->
       generateSensitivityGridQ config bankTermYears familyMonthly
         netIncomeMonthly fuel
       = Some (map (fun a => map (cellQ a) rates) amounts)) /\
    (Z.of_nat (List.length amounts)
     = sweepCount (minAmount config) (maxAmount config) (stepAmount config))%Z
    /\
    (Z.of_nat (List.length rates)
     = sweepCount (minRate config) (maxRate config) (stepRate config))%Z /\
    StronglySorted Qlt amounts /\ StronglySorted Qlt rates.
Proof.
  intros HsA HsR HA HR.
  destruct (sweepQ_count _ _ HsA _ HA) as (amounts & EA & LA & _ & SA).
  destruct (sweepQ_count _ _ HsR _ HR) as (rates & ER & LR & _ & SR).
  eexists. exists amounts, rates.
  split; [|repeat split; assumption].
  intros fuel Hfuel. unfold generateSensitivityGridQ, generateSensitivityGrid.
  exact (grid_product _ _ _ _ _ _ _ _ _ _ _ _ EA ER fuel Hfuel).
Qed.

Lemma rateLoopQ_diverges fuel amount r :
  stepRate config <= 0 -> r <= maxRate config ->
  rateLoop QOps Finance.pmt Finance.round2 config bankTermYears familyMonthly
    netIncomeMonthly fuel amount r = None.
Proof.
  intros Hs Hr. rewrite rateLoop_sweep, sweepQ_diverges by assumption.
  reflexivity.
Qed.

Lemma amountLoopQ_diverges fuel : forall amount,
  amount <= maxAmount config ->
  stepAmount config <= 0
  \/ (stepRate config <= 0 /\ minRate config <= maxRate config) ->
  amountLoop QOps Finance.pmt Finance.round2 config bankTermYears
    familyMonthly netIncomeMonthly fuel amount = None.
Proof.
  induction fuel as [|fuel IH]; intros amount Hx Hbad; [reflexivity|].
  cbn [amountLoop n_leb n_add QOps].
  pose proof Hx as Hb. apply Qle_bool_iff in Hb. rewrite Hb.
  destruct Hbad as [Hstep|[Hstep Hrates]].
  - rewrite IH; [|lra|left; assumption].
    destruct (rateLoop _ _ _ _ _ _ _ _ _ _); reflexivity.
  - change (n_add QOps) with Qplus.
    rewrite rateLoopQ_diverges by assumption. reflexivity.
Qed.

(** With a step that is not positive, and the bounds it sweeps in order,
    the generator never returns, whatever the fuel. *)
Lemma grid_nonpositive_step_diverges :
  minAmount config <= maxAmount config ->
  stepAmount config <= 0
  \/ (stepRate config <= 0 /\ minRate config <= maxRate config) ->
  forall fuel,
    generateSensitivityGridQ config bankTermYears familyMonthly
      netIncomeMonthly fuel = None.
Proof.
  intros HA Hbad fuel.
  unfold generateSensitivityGridQ, generateSensitivityGrid.
  apply amountLoopQ_diverges; assumption.
Qed.

End GridClaims.

(* ------------------------------------------------------------------ *)
(** ** Configurations out of order *)
(* ------------------------------------------------------------------ *)

Section UncheckedConfiguration.
Import Sensitivity.

Context {num : Type}.
Variable ops : NumberOps num.
Variable pmt : num -> Z -> num -> num.
Variable round2 : num -> num.

(** C4, as the code has it.  The generator checks nothing and reports
    nothing: when the test [minAmount <= maxAmount] fails, the outer loop
    does not run and the empty grid is returned.  This holds for any
    number operations, those of doubles included. *)
Theorem grid_amounts_out_of_order (config : SensitivityConfig num)
    (bankTermYears : Z) (familyMonthly netIncomeMonthly : num) :
  n_leb ops (minAmount config) (maxAmount config) = false ->
  forall fuel,
    generateSensitivityGrid ops pmt round2 config bankTermYears
      familyMonthly netIncomeMonthly (S fuel) = Some [].
Proof.
  intros H fuel.
  unfold generateSensitivityGrid. cbn [amountLoop].
  rewrite H. reflexivity.
Qed.

End UncheckedConfiguration.

Section MalformedConfigurations.
Import Sensitivity.

(** C4, as the specification has it, fails: a configuration with its
    amounts out of order gets an empty grid back, not an error. *)
Lemma grid_reversed_amounts_empty :
  generateSensitivityGridQ reversedConfig 25 1000 10000 1 = Some [].
Proof. reflexivity. Qed.

Lemma grid_amounts_out_of_order_witness :
  generateSensitivityGridF64 (Doubles.pmt Doubles.powRounded) Doubles.round2
    GridSamples.reversedConfigF64 25 1000 10000 1 = Some [].
Proof.
  apply (grid_amounts_out_of_order F64Ops (Doubles.pmt Doubles.powRounded)
           Doubles.round2 GridSamples.reversedConfigF64 25 1000%float
           10000%float).
  reflexivity.
Defined.

(** A step of zero: the generator does not return. *)
Example grid_zero_step_diverges fuel :
  generateSensitivityGridQ zeroStepConfig 25 1000 10000 fuel = None.
Proof.
  apply grid_nonpositive_step_diverges; [discriminate | left; discriminate].
Qed.

End MalformedConfigurations.

(* ------------------------------------------------------------------ *)
(** ** The grid on doubles *)
(* ------------------------------------------------------------------ *)

Section GridOnDoubles.
Import Sensitivity.

Lemma grid_dimensions_exact_tenth :
  exists fuel0 amounts rates,
    (forall fuel, (fuel0 <= fuel)%nat ->
       generateSensitivityGridQ tenthConfigQ 25 1000 10000 fuel
       = Some (map (fun a =>
                      map (cellAt QOps Finance.pmt Finance.round2 25 1000
                             10000 a) rates) amounts)) /\
    (Z.of_nat (List.length amounts) = 3)%Z /\
    (Z.of_nat (List.length rates) = 11)%Z /\
    StronglySorted Qlt amounts /\ StronglySorted Qlt rates.
Proof.
  apply (grid_dimensions_exact tenthConfigQ 25 1000 10000);
    first [reflexivity | discriminate].
Defined.

Lemma tenth_sweeps_F64 :
  sweep F64Ops (maxAmount tenthConfigF64) (stepAmount tenthConfigF64) 20
    (minAmount tenthConfigF64) = Some tenthAmountsF64 /\
  sweep F64Ops (maxRate tenthConfigF64) (stepRate tenthConfigF64) 20
    (minRate tenthConfigF64) = Some tenthRatesF64.
Proof. split; vm_compute; reflexivity. Qed.

(** C3 on doubles.  With rates from 3 to 4 in steps of 0.1 the quotient
    (4 - 3) / 0.1 is 10, so the rule asks for 11 cells a row, and on exact
    rationals there are 11.  On doubles every row has 10 cells: the tenth
    addition of 0.1 gives a number above 4, so the rates stop below the
    upper bound and the column for 4 percent is missing. *)
Theorem grid_columns_drift (pmt : float -> Z -> float -> float)
    (round2 : float -> float) :
  (PrimFloat.div (PrimFloat.sub (maxRate tenthConfigF64)
                    (minRate tenthConfigF64))
     (stepRate tenthConfigF64) = 10%float /\
   sweepCount (minRate tenthConfigQ) (maxRate tenthConfigQ)
     (stepRate tenthConfigQ) = 11%Z) /\
  (forall fuel, (40 <= fuel)%nat ->
     generateSensitivityGridF64 pmt round2 tenthConfigF64 25 1000 10000 fuel
     = Some (map (fun a =>
                    map (cellAt F64Ops pmt round2 25 1000%float 10000%float a)
                      tenthRatesF64) tenthAmountsF64)) /\
  List.length tenthAmountsF64 = 3%nat /\
  List.length tenthRatesF64 = 10%nat /\
  Forall (fun r => PrimFloat.ltb r (maxRate tenthConfigF64) = true)
    tenthRatesF64 /\
  PrimFloat.ltb (maxRate tenthConfigF64)
    (PrimFloat.add (last tenthRatesF64 0%float) (stepRate tenthConfigF64))
  = true.
Proof.
  split; [split; vm_compute; reflexivity|].
  split.
  - intros fuel Hfuel. destruct tenth_sweeps_F64 as [EA ER].
    unfold generateSensitivityGridF64, generateSensitivityGrid.
    exact (grid_product F64Ops pmt round2 tenthConfigF64 25 1000%float
             10000%float 20 20 _ _ _ EA ER fuel Hfuel).
  - repeat split; try (vm_compute; reflexivity).
    repeat constructor.
Qed.

End GridOnDoubles.
(* ================================================================== *)
(** * The expectations of the test suite, on the model *)
(* ================================================================== *)

Section TestSuite.
Import Finance Sensitivity.

(** tests/finance.test.ts, [round2]. *)
Example round2_test :
  round2 (123456 # 1000) == 12346 # 100 /\ round2 (123454 # 1000) == 12345 # 100.
Proof. split; reflexivity. Qed.

(** tests/finance.test.ts, [pmt]: 100000 at 4 percent over 20 years is
    605.98 a month, to the cent. *)
Example pmt_test : round2 (pmt (4 # 100) 20 100000) == 60598 # 100.
Proof. vm_compute. reflexivity. Qed.

(** tests/finance.test.ts, [buildAmort]: 100000 at 4 percent over 10
    years gives 120 rows and ends on a balance of zero. *)
Example buildAmort_test :
  List.length (buildAmort 100000 (4 # 100) 10) = 120%nat /\
  forall d, balance (last (buildAmort 100000 (4 # 100) 10) d) == 0.
Proof.
  split; [apply (amortLoop_length 120)|].
  intro d.
  destruct (buildAmort_start 100000 (4 # 100) 10) as [Hpay Hown];
    [discriminate | reflexivity | reflexivity |].
  apply (amortLoop_last_balance _ _ Hpay (eq_refl : 0 < (4 # 100) / 12) 119).
  exact Hown.
Qed.

(** tests/sensitivity.test.ts: three amounts by three rates. *)
Example generateSensitivityGrid_test :
  exists grid,
    generateSensitivityGridQ testConfig 25 1000 10000 10 = Some grid /\
    List.length grid = 3%nat /\
    Forall (fun row => List.length row = 3%nat) grid /\
    getAmounts grid = Some [600000; 650000; 700000] /\
    map Qred (getRates grid) = [3; 7 # 2; 4].
Proof.
  eexists. split; [reflexivity|].
  split; [reflexivity|]. split; [repeat constructor|].
  split; reflexivity.
Qed.

(** On [DEFAULT_SENSITIVITY_CONFIG] the additions are exact, and doubles
    and exact rationals agree: 17 amounts and 11 rates. *)
Example default_config_sweeps :
  sweepCount 600000 1000000 25000 = 17%Z /\
  sweepCount 3 (11 # 2) (1 # 4) = 11%Z /\
  option_map (@List.length _)
    (sweep F64Ops (maxAmount DEFAULT_SENSITIVITY_CONFIG_F64)
       (stepAmount DEFAULT_SENSITIVITY_CONFIG_F64) 40
       (minAmount DEFAULT_SENSITIVITY_CONFIG_F64)) = Some 17%nat /\
  option_map (@List.length _)
    (sweep F64Ops (maxRate DEFAULT_SENSITIVITY_CONFIG_F64)
       (stepRate DEFAULT_SENSITIVITY_CONFIG_F64) 40
       (minRate DEFAULT_SENSITIVITY_CONFIG_F64)) = Some 11%nat.
Proof. repeat split; vm_compute; reflexivity. Qed.

End TestSuite.

(* ================================================================== *)
(** * lib/finance.ts on doubles: where rounding breaks the schedule *)
(* ================================================================== *)

Section OnDoubles.
Import Doubles.
Local Open Scope float_scope.

Variable Math_pow : float -> float -> float.

Lemma buildAmort_loop P rate years :
  buildAmort Math_pow P rate years
  = amortLoop (Z.to_nat (years * 12)) 1 (pmt Math_pow rate years P)
      (rate / 12) P.
Proof. reflexivity. Qed.

Lemma amortLoop_turn n i pay r bal :
  amortLoop (S n) i pay r bal
  = {| month := i;
       payment := round2 pay;
       interest := round2 (bal * r);
       principal := round2 (Math_min (pay - bal * r) bal);
       balance := round2 (Math_max 0 (bal - Math_min (pay - bal * r) bal)) |}
    :: amortLoop n (i + 1)%Z pay r
         (Math_max 0 (bal - Math_min (pay - bal * r) bal)).
Proof. reflexivity. Qed.

Lemma amortLoop_rows n : forall i pay r bal,
  List.length (amortLoop n i pay r bal) = n.
Proof.
  induction n as [|n IH]; intros i pay r bal; [reflexivity|].
  rewrite amortLoop_turn. cbn [List.length]. now rewrite IH.
Qed.

(** When a turn of the loop leaves the balance where it was, so does
    every later turn, and all rows show the same amounts. *)
Lemma amortLoop_fixed pay r bal :
  Math_max 0 (bal - Math_min (pay - bal * r) bal) = bal ->
  forall n i,
    Forall (fun row =>
              principal row = round2 (Math_min (pay - bal * r) bal) /\
              balance row = round2 bal)
      (amortLoop n i pay r bal).
Proof.
  intros Hfixed. induction n as [|n IH]; intro i; [constructor|].
  rewrite amortLoop_turn, Hfixed.
  constructor; [split; reflexivity | apply IH].
Qed.

Lemma amortLoop_fixed_principal pay r bal :
  Math_max 0 (bal - Math_min (pay - bal * r) bal) = bal ->
  forall n i,
    map principal (amortLoop n i pay r bal)
    = repeat (round2 (Math_min (pay - bal * r) bal)) n.
Proof.
  intros Hfixed. induction n as [|n IH]; intro i; [reflexivity|].
  rewrite amortLoop_turn, Hfixed. cbn [map principal repeat].
  now rewrite IH.
Qed.

Lemma Forall_last {A} (P : A -> Prop) (l : list A) (d : A) :
  Forall P l -> l <> [] -> P (last l d).
Proof.
  induction 1 as [|x l Hx Hl IH]; [congruence|]. intros _.
  destruct l as [|y l]; [exact Hx|]. apply IH. discriminate.
Qed.

(** The payment for 850000 at 150 percent over 25 years, from the power
    that [Math.pow] returns; it is 106250.00000000004 for each of the
    three doubles nearest to the exact power. *)
Lemma pmt_high_rate p :
  Math_pow (1 + 1.5 / 12) (ofZ 300) = p ->
  pmt Math_pow 1.5 25 850000 = (850000 * (0.125 * p)) / (p - 1).
Proof. intros <-. reflexivity. Qed.

Lemma pmt_high_rate_value :
  nearExact Math_pow (1 + 1.5 / 12) 300 ->
  pmt Math_pow 1.5 25 850000 = 0x1.9f0a000000003p+16.
Proof.
  intros [H|[H|H]]; rewrite (pmt_high_rate _ H); vm_compute; reflexivity.
Qed.

(** C1 on doubles.  A loan of 850000 at an annual rate of 1.5 (150
    percent) over 25 years.  The payment is 106250.00000000004 and the
    first interest 106250, so the part of the payment that would repay
    principal is smaller than the gap between 850000 and the next double
    below it: the balance is 850000 after every one of the 300 rows, the
    last one included, and the principal column is 0 throughout. *)
Theorem buildAmort_balance_stuck :
  nearExact Math_pow (1 + 1.5 / 12) 300 ->
  let rows := buildAmort Math_pow 850000 1.5 25 in
  List.length rows = 300%nat /\
  Forall (fun row => principal row = 0 /\ balance row = 850000) rows /\
  forall d, balance (last rows d) = 850000.
Proof.
  intros H rows. subst rows.
  rewrite buildAmort_loop, (pmt_high_rate_value H).
  assert (Hrows : forall n i,
            Forall (fun row => principal row = 0 /\ balance row = 850000)
              (amortLoop n i 0x1.9f0a000000003p+16 (1.5 / 12) 850000)).
  { intros n i.
    apply (amortLoop_fixed 0x1.9f0a000000003p+16 (1.5 / 12) 850000).
    vm_compute. reflexivity. }
  split; [apply amortLoop_rows|]. split; [apply Hrows|].
  intro d. apply (Forall_last _ _ d (Hrows _ _)). discriminate.
Qed.

(** The payment for 120000 over 10 years at the annual rates 1e-17 and
    2e-17: [1 + r] is 1 on doubles, and so is its power. *)
Lemma pmt_tiny_rate :
  Math_pow 1 (ofZ 120) = 1 ->
  pmt Math_pow 1e-17 10 120000 = infinity /\
  pmt Math_pow 2e-17 10 120000 = infinity.
Proof.
  intro H. unfold pmt.
  change (1 + 1e-17 / 12) with 1. change (1 + 2e-17 / 12) with 1.
  change (ofZ 10 * 12) with (ofZ 120). rewrite H. split; reflexivity.
Qed.

(** The payment at 4.6875 percent, a rate for which [1 + r] is 257/256,
    from the power that [Math.pow] returns. *)
Lemma pmt_ordinary_rate p :
  Math_pow (1 + 0.046875 / 12) (ofZ 120) = p ->
  pmt Math_pow 0.046875 10 120000
  = (120000 * (0.046875 / 12 * p)) / (p - 1).
Proof. intros <-. reflexivity. Qed.

(** C9 on doubles.  For 120000 over 10 years, the payment at an annual
    rate of 1e-17 is infinite: [1 + r] rounds to 1, the power is 1 and
    the quotient divides by [1 - 1].  It is the same at the rate 2e-17,
    so the payment does not rise between the two; and at 4.6875 percent
    the payment is below 1255, so from 1e-17 to 0.046875 it falls. *)
Theorem pmt_not_increasing_in_rate :
  Math_pow 1 (ofZ 120) = 1 ->
  nearExact Math_pow (1 + 0.046875 / 12) 120 ->
  pmt Math_pow 1e-17 10 120000 = infinity /\
  (pmt Math_pow 1e-17 10 120000 <? pmt Math_pow 2e-17 10 120000) = false /\
  (pmt Math_pow 0.046875 10 120000 <? pmt Math_pow 1e-17 10 120000) = true /\
  (pmt Math_pow 0.046875 10 120000 <? 1255) = true.
Proof.
  intros H1 H. destruct (pmt_tiny_rate H1) as [E1 E2]. rewrite E1, E2.
  split; [reflexivity|]. split; [reflexivity|].
  destruct H as [H|[H|H]]; rewrite (pmt_ordinary_rate _ H);
    split; vm_compute; reflexivity.
Qed.

(** With an infinite payment the first row repays all of the loan and
    the later rows repay nothing. *)
Lemma repaid_at_once :
  map principal (amortLoop 120 1 infinity (1e-17 / 12) 120000)
  = 120000 :: repeat 0 119.
Proof.
  rewrite amortLoop_turn, map_cons.
  assert (Hnew : Math_max 0
                   (120000 - Math_min (infinity - 120000 * (1e-17 / 12))
                               120000) = 0)
    by (vm_compute; reflexivity).
  assert (Hfixed : Math_max 0
                     (0 - Math_min (infinity - 0 * (1e-17 / 12)) 0) = 0)
    by (vm_compute; reflexivity).
  assert (Hlater : round2 (Math_min (infinity - 0 * (1e-17 / 12)) 0) = 0)
    by (vm_compute; reflexivity).
  rewrite Hnew, (amortLoop_fixed_principal infinity (1e-17 / 12) 0 Hfixed),
    Hlater.
  apply (f_equal (fun x => x :: repeat 0 119)).
  vm_compute. reflexivity.
Qed.

(** The payment for 850000 over one year at the rate 1e-12, from the
    power that [Math.pow] returns. *)
Lemma pmt_small_rate p :
  Math_pow (1 + 1e-12 / 12) (ofZ 12) = p ->
  pmt Math_pow 1e-12 1 850000 = (850000 * (1e-12 / 12 * p)) / (p - 1).
Proof. intros <-. reflexivity. Qed.

(** C8 on doubles.  At an annual rate of 1e-17 the payment for 120000
    over 10 years is infinite, the first row repays the whole loan and
    the principal column falls from 120000 to 0 and stays there.  At the
    rate 1e-12 the payment for 850000 over one year is about 70890 where
    70833.33 is due, the loan is repaid before the last row, and the
    principal of row 12 is more than 400 below that of row 11. *)
Theorem buildAmort_principal_falls :
  Math_pow 1 (ofZ 120) = 1 ->
  nearExact Math_pow (1 + 1e-12 / 12) 12 ->
  map principal (buildAmort Math_pow 120000 1e-17 10)
  = 120000 :: repeat 0 119 /\
  exists before last,
    nth_error (buildAmort Math_pow 850000 1e-12 1) 10 = Some before /\
    nth_error (buildAmort Math_pow 850000 1e-12 1) 11 = Some last /\
    (principal last + 400 <? principal before) = true.
Proof.
  intros H1 H. split.
  - rewrite buildAmort_loop. destruct (pmt_tiny_rate H1) as [-> _].
    exact repaid_at_once.
  - rewrite buildAmort_loop.
    destruct H as [H|[H|H]]; rewrite (pmt_small_rate _ H);
      eexists; eexists; (split; [vm_compute; reflexivity|]);
      (split; [vm_compute; reflexivity|]); vm_compute; reflexivity.
Qed.

End OnDoubles.

Lemma buildAmort_balance_stuck_witness :
  Forall (fun row => Doubles.principal row = 0%float /\
                     Doubles.balance row = 850000%float)
    (Doubles.buildAmort Doubles.powRounded 850000 1.5 25).
Proof.
  assert (H : Doubles.nearExact Doubles.powRounded (1 + 1.5 / 12)%float 300)
    by (right; left; reflexivity).
  destruct (buildAmort_balance_stuck Doubles.powRounded H) as (_ & Hrows & _).
  exact Hrows.
Defined.

Lemma pmt_not_increasing_in_rate_witness :
  Doubles.pmt Doubles.powRounded 1e-17 10 120000 = infinity.
Proof.
  assert (H1 : Doubles.powRounded 1 (Doubles.ofZ 120) = 1%float)
    by (vm_compute; reflexivity).
  assert (H : Doubles.nearExact Doubles.powRounded (1 + 0.046875 / 12)%float
                120)
    by (right; left; reflexivity).
  destruct (pmt_not_increasing_in_rate Doubles.powRounded H1 H) as (E & _).
  exact E.
Defined.

Lemma buildAmort_principal_falls_witness :
  map Doubles.principal
    (Doubles.buildAmort Doubles.powRounded 120000 1e-17 10)
  = 120000%float :: repeat 0%float 119.
Proof.
  assert (H1 : Doubles.powRounded 1 (Doubles.ofZ 120) = 1%float)
    by (vm_compute; reflexivity).
  assert (H : Doubles.nearExact Doubles.powRounded (1 + 1e-12 / 12)%float 12)
    by (right; left; reflexivity).
  destruct (buildAmort_principal_falls Doubles.powRounded H1 H) as (E & _).
  exact E.
Defined.

(* ================================================================== *)
(** * Further properties of lib/finance.ts *)
(* ================================================================== *)

Section ScheduleColumns.
Import Finance.

Lemma amortLoop_months n : forall i pay r b,
  map month (amortLoop n i pay r b)
  = map (fun k => (i + Z.of_nat k)%Z) (seq 0 n).
Proof.
  induction n as [|n IH]; intros i pay r b; [reflexivity|].
  cbn [amortLoop map seq month]. rewrite IH.
  f_equal; [lia|].
  rewrite <- seq_shift, map_map.
  apply map_ext. intro k. lia.
Qed.

Lemma amortLoop_payments n : forall i pay r b,
  Forall (fun row => payment row = round2 pay) (amortLoop n i pay r b).
Proof.
  induction n as [|n IH]; intros i pay r b; [constructor|].
  cbn [amortLoop]. constructor; [reflexivity | apply IH].
Qed.

(** Whatever the loan, the rows of a schedule are numbered 1, 2, 3, ...
    in order, and every row shows the same payment, that of [pmt] rounded
    to the cent. *)
Theorem buildAmort_months_and_payment (P rate : Q) (years : Z) :
  map month (buildAmort P rate years)
  = map Z.of_nat (seq 1 (Z.to_nat (years * 12))) /\
  Forall (fun row => payment row = round2 (pmt rate years P))
    (buildAmort P rate years).
Proof.
  unfold buildAmort. split.
  - rewrite amortLoop_months, <- seq_shift, map_map.
    apply map_ext. intro k. lia.
  - apply amortLoop_payments.
Qed.

End ScheduleColumns.

(* ================================================================== *)
(** * Further properties of lib/advisor.ts *)
(* ================================================================== *)

Section Recommendations.
Import Finance Advisor Advice.

Lemma Some_inj {A} (x y : A) : Some x = Some y -> x = y.
Proof. congruence. Qed.

Lemma firstn_short {A} n (l : list A) :
  (List.length l <= n)%nat -> firstn n l = l.
Proof. intro H. apply firstn_all2, H. Qed.

Lemma In_firstn {A} n (x : A) l : In x (firstn n l) -> In x l.
Proof.
  revert l. induction n as [|n IH]; intros [|y l] H; cbn in *; try tauto.
  destruct H as [H|H]; [left; exact H | right; apply IH, H].
Qed.

(** The solid-plan note.  A run returns at most five recommendations.
    The note that the plan is solid is only given when there is no
    shortfall, the debt ratio is at most 45 and the net at least 1500;
    then there are at most two recommendations, and none of them is about
    the shortfall, the debt ratio or the buffer. *)
Theorem generateRecommendations_solid (inputs : FinancialInputs)
    (summary : Summary) (scenarios : list ScenarioAnalysis)
    (recs : list Recommendation) :
  generateRecommendations inputs summary scenarios = Some recs ->
  (List.length recs <= 5)%nat /\
  (In RecSolid recs ->
   fundingGap summary <= 0 /\ Finance.dtiPct summary <= 45 /\
   1500 <= netAfter summary /\
   (List.length recs <= 2)%nat /\ Forall isFollowUp recs).
Proof.
  unfold generateRecommendations.
  destruct (nth_error scenarios 2) as [cons|]; [|discriminate].
  set (rec1 := if Qlt_bool 0 (fundingGap summary) then _ else _).
  set (rec2 := if Qlt_bool 45 (Finance.dtiPct summary) then _ else _).
  set (rec3 := if Qlt_bool (netAfter summary) 1000 then _ else _).
  set (rec4 := if Qlt_bool 60 (dtiPct cons) then _ else _).
  set (rec5 := if useAirbnbIncome inputs && _ then _ else _).
  set (rec6 := if Qlt_bool (contingencyPct inputs) 12 then _ else _).
  set (base := rec1 ++ rec2 ++ rec3 ++ rec4 ++ rec5 ++ rec6).
  intro H. apply Some_inj in H. subst recs.
  split; [rewrite length_firstn; lia|].
  assert (Hbase : ~ In RecSolid base).
  { unfold base, rec1, rec2, rec3, rec4, rec5, rec6.
    rewrite !in_app_iff.
    destruct (Qlt_bool 0 (fundingGap summary)),
             (Qlt_bool 45 (Finance.dtiPct summary)),
             (Qlt_bool 55 (Finance.dtiPct summary)),
             (Qlt_bool (netAfter summary) 1000),
             (Qlt_bool 60 (dtiPct cons)),
             (useAirbnbIncome inputs && Qlt_bool 500 (airbnbIncome inputs)),
             (Qlt_bool (contingencyPct inputs) 12);
      cbn; intuition discriminate. }
  destruct (Qle_bool (fundingGap summary) 0) eqn:Egap;
    [|cbn [andb]; rewrite app_nil_r; intro Hin; apply In_firstn in Hin;
      tauto].
  destruct (Qle_bool (Finance.dtiPct summary) 45) eqn:Edti;
    [|cbn [andb]; rewrite app_nil_r; intro Hin; apply In_firstn in Hin;
      tauto].
  destruct (Qle_bool 1500 (netAfter summary)) eqn:Enet;
    [|cbn [andb]; rewrite app_nil_r; intro Hin; apply In_firstn in Hin;
      tauto].
  destruct (List.length base <? 2)%nat eqn:Elen;
    [|cbn [andb]; rewrite app_nil_r; intro Hin; apply In_firstn in Hin;
      tauto].
  cbn [andb]. intros _.
  apply Nat.ltb_lt in Elen.
  rewrite firstn_short by (rewrite length_app; cbn; lia).
  apply Qle_bool_iff in Egap. apply Qle_bool_iff in Edti.
  pose proof Enet as Hnet. apply Qle_bool_iff in Hnet.
  repeat split; try assumption; [rewrite length_app; cbn; lia|].
  assert (E1 : rec1 = []).
  { unfold rec1, Qlt_bool. apply Qle_bool_iff in Egap. now rewrite Egap. }
  assert (E2 : rec2 = []).
  { unfold rec2, Qlt_bool. apply Qle_bool_iff in Edti. now rewrite Edti. }
  assert (E3 : rec3 = []).
  { unfold rec3. destruct (Qlt_bool (netAfter summary) 1000) eqn:E;
      [|reflexivity]. apply Qlt_bool_iff in E. lra. }
  unfold base. rewrite E1, E2, E3. cbn [app].
  unfold rec4, rec5, rec6.
  destruct (Qlt_bool 60 (dtiPct cons)),
           (useAirbnbIncome inputs && Qlt_bool 500 (airbnbIncome inputs)),
           (Qlt_bool (contingencyPct inputs) 12);
    cbn; repeat constructor.
Qed.

(** The cap at five.  When all six warnings apply, the sixth, about the
    contingency, is cut off. *)
Theorem generateRecommendations_cap (inputs : FinancialInputs)
    (summary : Summary) (scenarios : list ScenarioAnalysis)
    (conservative : ScenarioAnalysis) :
  nth_error scenarios 2 = Some conservative ->
  0 < fundingGap summary -> 45 < Finance.dtiPct summary ->
  netAfter summary < 1000 -> 60 < dtiPct conservative ->
  useAirbnbIncome inputs = true -> 500 < airbnbIncome inputs ->
  contingencyPct inputs < 12 ->
  exists recs,
    generateRecommendations inputs summary scenarios = Some recs /\
    List.length recs = 5%nat /\
    ~ In RecContingency recs /\
    nth_error recs 0 = Some (RecFundingGap (Math_round (fundingGap summary))).
Proof.
  intros Hcons Hgap Hdti Hnet Hcdti Hair Hinc Hcont.
  unfold generateRecommendations. rewrite Hcons, Hair.
  apply Qlt_bool_iff in Hgap, Hdti, Hnet, Hcdti, Hinc, Hcont.
  rewrite Hgap, Hdti, Hnet, Hcdti, Hinc, Hcont. cbn [andb].
  destruct (Qlt_bool 55 (Finance.dtiPct summary)); cbn [app List.length].
  all: eexists; split; [reflexivity|].
  all: rewrite andb_false_r; cbn.
  all: split; [reflexivity|]; split; [|reflexivity].
  all: intuition discriminate.
Qed.

Lemma generateRecommendations_solid_witness :
  exists recs,
    generateRecommendations strainedInputs strainedSummary
      [strainedScenario; strainedScenario; strainedScenario] = Some recs /\
    (List.length recs <= 5)%nat.
Proof.
  destruct (generateRecommendations strainedInputs strainedSummary
              [strainedScenario; strainedScenario; strainedScenario])
    as [recs|] eqn:E; [|discriminate E].
  exists recs. split; [reflexivity|].
  apply (generateRecommendations_solid _ _ _ _ E).
Defined.

Lemma generateRecommendations_cap_witness :
  exists recs,
    generateRecommendations strainedInputs strainedSummary
      [strainedScenario; strainedScenario; strainedScenario] = Some recs /\
    List.length recs = 5%nat /\
    ~ In RecContingency recs /\
    nth_error recs 0
    = Some (RecFundingGap (Math_round (fundingGap strainedSummary))).
Proof.
  apply (generateRecommendations_cap strainedInputs strainedSummary
           [strainedScenario; strainedScenario; strainedScenario]
           strainedScenario); reflexivity.
Defined.

(** A shortfall is reported by the headline, by the second sentence of
    the summary and by the first recommendation, all three with the same
    rounded amount; without a shortfall none of the three mentions one. *)
Theorem shortfall_reported_everywhere
    (inputs : FinancialInputs) (summary : Summary) :
  exists analysis recs,
    analyzeFinancials inputs summary = Some analysis /\
    generateRecommendations inputs summary (scenarios analysis) = Some recs
    /\
    (0 < fundingGap summary ->
     riskLevel analysis = HoogRisicoTekort (Math_round (fundingGap summary))
     /\
     nth_error (generateSummaryText summary) 1
     = Some (SentShortfall (Math_round (fundingGap summary))) /\
     nth_error recs 0
     = Some (RecFundingGap (Math_round (fundingGap summary)))) /\
    (fundingGap summary <= 0 ->
     forall amount,
       riskLevel analysis <> HoogRisicoTekort amount /\
       ~ In (SentShortfall amount) (generateSummaryText summary) /\
       ~ In (RecFundingGap amount) recs).
Proof.
  unfold analyzeFinancials, assessOverallRisk, generateRecommendations,
    generateSummaryText.
  rewrite generateScenarios_realistic.
  destruct (Qlt_bool 0 (fundingGap summary)) eqn:Egap.
  - apply Qlt_bool_iff in Egap.
    eexists. eexists. split; [reflexivity|].
    cbn [scenarios riskLevel]. split; [reflexivity|]. split.
    + intros _. repeat split; reflexivity.
    + intro Hle. exfalso. apply (Qlt_not_le _ _ Egap Hle).
  - assert (Hle : fundingGap summary <= 0).
    { unfold Qlt_bool in Egap. apply negb_false_iff in Egap.
      apply Qle_bool_iff; assumption. }
    destruct (risk (calculateScenario "Realistisch" _ _ _ _ _)) eqn:Erisk.
    all: eexists; eexists; split; [reflexivity|].
    all: cbn [scenarios riskLevel]; split; [reflexivity|]; split.
    all: try (intro Hgap; exfalso; apply (Qlt_not_le _ _ Hgap Hle)).
    all: intros _ amount; split; [discriminate|]; split.
    all: try (cbn [app]; destruct (Qlt_bool (fundingGap summary) (-10000)),
                (Qlt_bool 55 (Finance.dtiPct summary)),
                (Qlt_bool 45 (Finance.dtiPct summary)),
                (Qlt_bool (netAfter summary) 0),
                (Qlt_bool (netAfter summary) 500),
                (Qlt_bool (netAfter summary) 1500);
              cbn; intuition discriminate).
    all: intro Hin; apply In_firstn in Hin; revert Hin;
      rewrite !in_app_iff;
      destruct (Qlt_bool 45 (Finance.dtiPct summary)),
               (Qlt_bool 55 (Finance.dtiPct summary)),
               (Qlt_bool (netAfter summary) 1000),
               (Qlt_bool 60 _),
               (useAirbnbIncome inputs && Qlt_bool 500 (airbnbIncome inputs)),
               (Qlt_bool (contingencyPct inputs) 12),
               (_ && _ && _ && _);
      cbn; intuition discriminate.
Qed.

Lemma shortfall_reported_everywhere_witness :
  exists analysis recs,
    analyzeFinancials strainedInputs strainedSummary = Some analysis /\
    generateRecommendations strainedInputs strainedSummary
      (scenarios analysis) = Some recs /\
    riskLevel analysis = HoogRisicoTekort 134000 /\
    nth_error (generateSummaryText strainedSummary) 1
    = Some (SentShortfall 134000) /\
    nth_error recs 0 = Some (RecFundingGap 134000).
Proof.
  destruct (shortfall_reported_everywhere strainedInputs strainedSummary)
    as (analysis & recs & Ha & Hr & Hpos & _).
  exists analysis, recs.
  split; [exact Ha | split; [exact Hr | apply Hpos; reflexivity]].
Defined.

End Recommendations.

(* ================================================================== *)
(** * Further properties of lib/sensitivity.ts *)
(* ================================================================== *)

Section GridAxes.
Import Sensitivity.

Context {num : Type}.
Variable ops : NumberOps num.
Variable pmt : num -> Z -> num -> num.
Variable round2 : num -> num.
Variable bankTermYears : Z.
Variable familyMonthly : num.
Variable netIncomeMonthly : num.

#[local] Abbreviation cell' :=
  (cellAt ops pmt round2 bankTermYears familyMonthly netIncomeMonthly).

Lemma getAmounts_product amounts rate rates :
  getAmounts (map (fun a => map (cell' a) (rate :: rates)) amounts)
  = Some amounts.
Proof.
  induction amounts as [|a amounts IH]; [reflexivity|].
  cbn [map getAmounts amount cellAt] in *. now rewrite IH.
Qed.

Lemma getAmounts_empty_rows amount amounts :
  getAmounts (map (fun a => map (cell' a) []) (amount :: amounts)) = None.
Proof. reflexivity. Qed.

Lemma getRates_product amount amounts rates :
  getRates (map (fun a => map (cell' a) rates) (amount :: amounts))
  = map round2 rates.
Proof.
  cbn [map getRates]. rewrite map_map. reflexivity.
Qed.

(** The axes of a grid.  When both loops end, with at least one amount
    and one rate visited, [getAmounts] returns the amounts that the outer
    loop visited and [getRates] the rounded rates that the inner loop
    visited. *)
Theorem grid_axes (config : SensitivityConfig num)
    (fuelA fuelR : nat) (amounts rates : list num) :
  sweep ops (maxAmount config) (stepAmount config) fuelA (minAmount config)
  = Some amounts ->
  sweep ops (maxRate config) (stepRate config) fuelR (minRate config)
  = Some rates ->
  amounts <> [] -> rates <> [] ->
  forall fuel, (fuelA + fuelR <= fuel)%nat ->
  exists grid,
    generateSensitivityGrid ops pmt round2 config bankTermYears
      familyMonthly netIncomeMonthly fuel = Some grid /\
    getAmounts grid = Some amounts /\
    getRates grid = map round2 rates.
Proof.
  intros HA HR HnA HnR fuel Hfuel.
  eexists. split.
  - unfold generateSensitivityGrid.
    exact (grid_product _ _ _ _ _ _ _ _ _ _ _ _ HA HR fuel Hfuel).
  - destruct amounts as [|a amounts]; [congruence|].
    destruct rates as [|r rates]; [congruence|].
    split; [apply getAmounts_product | apply getRates_product].
Qed.

(** Rows without cells.  When the amount loop ends, with at least one
    amount visited, and the test [minRate <= maxRate] fails, the grid has
    a row for every amount and no cell in any of them; [getAmounts],
    which reads the first cell of every row, fails on that grid, and
    [getRates] gives no rates. *)
Theorem getAmounts_fails_on_empty_rows (config : SensitivityConfig num)
    (fuelA : nat) (amounts : list num) :
  sweep ops (maxAmount config) (stepAmount config) fuelA (minAmount config)
  = Some amounts ->
  amounts <> [] ->
  n_leb ops (minRate config) (maxRate config) = false ->
  forall fuel, (fuelA + 1 <= fuel)%nat ->
  exists grid,
    generateSensitivityGrid ops pmt round2 config bankTermYears
      familyMonthly netIncomeMonthly fuel = Some grid /\
    List.length grid = List.length amounts /\
    Forall (fun row => row = []) grid /\
    getAmounts grid = None /\ getRates grid = [].
Proof.
  intros HA HnA HR fuel Hfuel.
  assert (ER : sweep ops (maxRate config) (stepRate config) 1
                 (minRate config) = Some []).
  { cbn [sweep]. now rewrite HR. }
  eexists. split.
  - unfold generateSensitivityGrid.
    exact (grid_product _ _ _ _ _ _ _ _ _ _ _ _ HA ER fuel Hfuel).
  - split; [now rewrite length_map|]. split.
    + apply Forall_forall. intros row Hin.
      apply in_map_iff in Hin. destruct Hin as (a & <- & _). reflexivity.
    + destruct amounts as [|a amounts]; [congruence|].
      split; reflexivity.
Qed.

End GridAxes.

Section GridAxesExact.
Import Sensitivity.

Lemma grid_axes_witness :
  exists grid,
    generateSensitivityGridQ testConfig 1 0 10000 10 = Some grid /\
    getAmounts grid = Some [600000; 650000; 700000] /\
    getRates grid = map Finance.round2 [3; 3 + (1 # 2); 3 + (1 # 2) + (1 # 2)].
Proof.
  apply (grid_axes QOps Finance.pmt Finance.round2 1 0 10000 testConfig
           5 5 [600000; 650000; 700000]
           [3; 3 + (1 # 2); 3 + (1 # 2) + (1 # 2)]);
    first [reflexivity | discriminate | lia].
Defined.

Lemma getAmounts_fails_on_empty_rows_witness :
  exists grid,
    generateSensitivityGridF64 (Doubles.pmt Doubles.powRounded)
      Doubles.round2 GridSamples.reversedRatesConfigF64 25 1000 10000 5
    = Some grid /\
    List.length grid = 3%nat /\ Forall (fun row => row = []) grid /\
    getAmounts grid = None /\ getRates grid = [].
Proof.
  apply (getAmounts_fails_on_empty_rows F64Ops
           (Doubles.pmt Doubles.powRounded) Doubles.round2 25 1000%float
           10000%float GridSamples.reversedRatesConfigF64 4
           [600000; 650000; 700000]%float);
    first [reflexivity | discriminate | lia].
Defined.

End GridAxesExact.

Section Colours.
Import Finance Sensitivity Heatmap.

Lemma visitCell_spans seen range cell :
  spans seen range -> spans (seen ++ [cell]) (visitCell range cell).
Proof.
  unfold spans, visitCell. destruct range as [[lo|] [hi|]]; cbn [min max];
    try tauto.
  - intros (Hall & (cl & Hcl & El) & (ch & Hch & Eh)).
    assert (Hlh : lo <= hi).
    { destruct (Hall cl Hcl) as [_ H]. rewrite El in H. exact H. }
    destruct (Qlt_bool (monthly cell) lo) eqn:E1;
      destruct (Qlt_bool hi (monthly cell)) eqn:E2;
      try (apply Qlt_bool_iff in E1); try (apply Qlt_bool_iff in E2);
      try (apply negb_false_iff, Qle_bool_iff in E1);
      try (apply negb_false_iff, Qle_bool_iff in E2).
    all: split; [intros c Hin; apply in_app_iff in Hin;
                 destruct Hin as [Hin|[<-|[]]];
                 [destruct (Hall c Hin); split; lra | split; lra]|].
    all: split;
      [ first [ exists cell; split; [apply in_app_iff; right; left;
                                     reflexivity | reflexivity]
              | exists cl; split; [apply in_app_iff; left; assumption
                                  | assumption] ]
      | first [ exists cell; split; [apply in_app_iff; right; left;
                                     reflexivity | reflexivity]
              | exists ch; split; [apply in_app_iff; left; assumption
                                  | assumption] ] ].
  - intros ->. cbn [app]. split; [|split].
    + intros c [<-|[]]. split; apply Qle_refl.
    + exists cell. split; [left|]; reflexivity.
    + exists cell. split; [left|]; reflexivity.
Qed.

Lemma fold_visitCell_spans row : forall seen range,
  spans seen range -> spans (seen ++ row) (fold_left visitCell row range).
Proof.
  induction row as [|cell row IH]; intros seen range H.
  - rewrite app_nil_r. exact H.
  - cbn [fold_left].
    replace (seen ++ cell :: row) with ((seen ++ [cell]) ++ row)
      by (rewrite <- app_assoc; reflexivity).
    apply IH, visitCell_spans, H.
Qed.

Lemma fold_rows_spans grid : forall seen range,
  spans seen range ->
  spans (seen ++ List.concat grid)
    (fold_left (fun range row => fold_left visitCell row range) grid range).
Proof.
  induction grid as [|row grid IH]; intros seen range H.
  - cbn [List.concat fold_left]. rewrite app_nil_r. exact H.
  - cbn [List.concat fold_left]. rewrite app_assoc.
    apply IH, fold_visitCell_spans, H.
Qed.

(** [getMonthlyRange] on a grid without cells leaves both bounds at
    their infinite starting values.  On a grid with a cell it returns two
    payments that occur in the grid, with every payment of the grid
    between them. *)
Theorem getMonthlyRange_bounds (grid : list (list (SensitivityCell Q))) :
  (List.concat grid = [] ->
   getMonthlyRange grid = {| min := None; max := None |}) /\
  (List.concat grid <> [] ->
   exists lo hi,
     getMonthlyRange grid = {| min := Some lo; max := Some hi |} /\
     (forall row cell, In row grid -> In cell row ->
        lo <= monthly cell /\ monthly cell <= hi) /\
     (exists row cell, In row grid /\ In cell row /\ monthly cell = lo) /\
     (exists row cell, In row grid /\ In cell row /\ monthly cell = hi)).
Proof.
  pose proof (fold_rows_spans grid [] {| min := None; max := None |} eq_refl)
    as H.
  cbn [app] in H. fold (getMonthlyRange grid) in H.
  unfold spans in H.
  destruct (getMonthlyRange grid) as [[lo|] [hi|]]; cbn [min max] in H;
    try tauto.
  - split; [intro E; exfalso|intros _].
    + destruct H as (_ & (c & Hc & _) & _). rewrite E in Hc. exact Hc.
    + destruct H as (Hall & (cl & Hcl & El) & (ch & Hch & Eh)).
      exists lo, hi. split; [reflexivity|]. split; [|split].
      * intros row cell Hrow Hcell. apply Hall.
        apply in_concat. exists row. split; assumption.
      * apply in_concat in Hcl. destruct Hcl as (row & Hrow & Hcell).
        exists row, cl. repeat split; assumption.
      * apply in_concat in Hch. destruct Hch as (row & Hrow & Hcell).
        exists row, ch. repeat split; assumption.
Qed.

Lemma getMonthlyRange_bounds_witness :
  getMonthlyRange [[]; []] = {| min := None; max := None |} /\
  exists lo hi,
    getMonthlyRange
      [[ {| amount := 600000; rate := 3; monthly := 2845.27;
            isComfortable := true |};
         {| amount := 600000; rate := 4; monthly := 3167.02;
            isComfortable := true |} ]]
    = {| min := Some lo; max := Some hi |}.
Proof.
  split.
  - destruct (getMonthlyRange_bounds [[]; []]) as [H _]. apply H.
    reflexivity.
  - destruct (getMonthlyRange_bounds
                [[ {| amount := 600000; rate := 3; monthly := 2845.27;
                      isComfortable := true |};
                   {| amount := 600000; rate := 4; monthly := 3167.02;
                      isComfortable := true |} ]]) as [_ H].
    destruct H as (lo & hi & E & _); [discriminate|].
    exists lo, hi. exact E.
Defined.

Lemma normalized_le (m1 m2 lo hi : Q) :
  lo < hi -> m1 <= m2 -> (m1 - lo) / (hi - lo) <= (m2 - lo) / (hi - lo).
Proof.
  intros Hr Hm. apply Qmult_le_compat_r; [lra|].
  apply Qlt_le_weak, Qinv_lt_0_compat. lra.
Qed.

(** The colour of a cell.  A cell that is not comfortable is red.  A
    comfortable cell is green when the range is empty; otherwise the
    lowest payment of the range is green, the highest orange, and a
    higher payment is never shown in a cooler colour: below a green cell
    all is green, above an orange cell all is orange. *)
Theorem getColorClass_scale (lo hi : Q) :
  (forall m, getColorClass m lo hi false = "bg-red-100 text-red-900"%string)
  /\
  (hi <= lo ->
   forall m, getColorClass m lo hi true
             = "bg-green-100 text-green-900"%string) /\
  (lo < hi ->
   getColorClass lo lo hi true = "bg-green-100 text-green-900"%string /\
   getColorClass hi lo hi true = "bg-orange-100 text-orange-900"%string /\
   forall m1 m2, m1 <= m2 ->
     (getColorClass m2 lo hi true = "bg-green-100 text-green-900"%string ->
      getColorClass m1 lo hi true = "bg-green-100 text-green-900"%string) /\
     (getColorClass m1 lo hi true = "bg-orange-100 text-orange-900"%string ->
      getColorClass m2 lo hi true
      = "bg-orange-100 text-orange-900"%string)).
Proof.
  split; [reflexivity|]. split.
  - intros Hr m. unfold getColorClass.
    assert (E : Qlt_bool 0 (hi - lo) = false).
    { unfold Qlt_bool. apply negb_false_iff, Qle_bool_iff. lra. }
    rewrite E. reflexivity.
  - intro Hr.
    assert (E : Qlt_bool 0 (hi - lo) = true) by (apply Qlt_bool_iff; lra).
    unfold getColorClass. rewrite E. cbn [negb].
    split; [|split].
    + assert (E0 : Qlt_bool ((lo - lo) / (hi - lo)) (33 # 100) = true).
      { apply Qlt_bool_iff.
        setoid_replace ((lo - lo) / (hi - lo)) with 0 by (field; lra).
        reflexivity. }
      now rewrite E0.
    + assert (E1 : (hi - lo) / (hi - lo) == 1) by (field; lra).
      assert (E33 : Qlt_bool ((hi - lo) / (hi - lo)) (33 # 100) = false).
      { unfold Qlt_bool. apply negb_false_iff, Qle_bool_iff.
        rewrite E1. discriminate. }
      assert (E67 : Qlt_bool ((hi - lo) / (hi - lo)) (67 # 100) = false).
      { unfold Qlt_bool. apply negb_false_iff, Qle_bool_iff.
        rewrite E1. discriminate. }
      now rewrite E33, E67.
    + intros m1 m2 Hm.
      pose proof (normalized_le m1 m2 lo hi Hr Hm) as Hn.
      set (n1 := (m1 - lo) / (hi - lo)) in *. clearbody n1.
      set (n2 := (m2 - lo) / (hi - lo)) in *. clearbody n2.
      destruct (Qlt_bool n1 (33 # 100)) eqn:A1;
        destruct (Qlt_bool n1 (67 # 100)) eqn:B1;
        destruct (Qlt_bool n2 (33 # 100)) eqn:A2;
        destruct (Qlt_bool n2 (67 # 100)) eqn:B2;
        split; intro H; try reflexivity; try discriminate H.
      all: exfalso.
      all: repeat match goal with
             | E : Qlt_bool _ _ = true |- _ => apply Qlt_bool_iff in E
             | E : Qlt_bool _ _ = false |- _ =>
                 apply negb_false_iff, Qle_bool_iff in E
             end; lra.
Qed.

Lemma getColorClass_scale_witness :
  getColorClass 2000 2000 4000 true = "bg-green-100 text-green-900"%string /\
  getColorClass 4000 2000 4000 true = "bg-orange-100 text-orange-900"%string /\
  getColorClass 3000 2000 2000 true = "bg-green-100 text-green-900"%string.
Proof.
  destruct (getColorClass_scale 2000 4000) as (_ & _ & H).
  destruct (H eq_refl) as (Hlo & Hhi & _).
  destruct (getColorClass_scale 2000 2000) as (_ & Hflat & _).
  split; [exact Hlo|]. split; [exact Hhi|]. apply Hflat. discriminate.
Defined.

(** tests/sensitivity.test.ts, [getColorClass]. *)
Example getColorClass_test :
  getColorClass 3000 2000 4000 false = "bg-red-100 text-red-900"%string /\
  getColorClass 2100 2000 4000 true = "bg-green-100 text-green-900"%string /\
  getColorClass 3000 2000 4000 true = "bg-yellow-100 text-yellow-900"%string /\
  getColorClass 3800 2000 4000 true = "bg-orange-100 text-orange-900"%string.
Proof. repeat split; reflexivity. Qed.

End Colours.

(* ================================================================== *)
(** * Properties of lib/storage.ts *)
(* ================================================================== *)

Section StorageFacts.
Import Finance Storage.

Lemma findScenario_app wanted l1 l2 :
  findScenario wanted (l1 ++ l2)
  = match findScenario wanted l1 with
    | Some s => Some s
    | None => findScenario wanted l2
    end.
Proof.
  unfold findScenario. induction l1 as [|s l1 IH]; [reflexivity|].
  cbn [app find]. destruct (String.eqb (id s) wanted); [reflexivity|exact IH].
Qed.

Lemma findScenario_id wanted l s :
  findScenario wanted l = Some s -> id s = wanted.
Proof.
  unfold findScenario. intro H. apply find_some in H.
  apply String.eqb_eq, H.
Qed.

(** Creating a scenario appends it to the stored list and leaves the
    default alone.  Every other id is looked up as before; and when the
    new id was not in use, looking it up gives the new scenario. *)
Theorem createScenario_then_get (stamp : Stamp) (chosen : string)
    (given : FinancialInputs) (storage : LocalStorage) :
  let scenario := fst (createScenario stamp chosen given storage) in
  let storage' := snd (createScenario stamp chosen given storage) in
  scenario = {| id := stampId stamp; name := chosen; inputs := given;
                createdAt := stampCreated stamp;
                updatedAt := stampUpdated stamp |} /\
  loadScenarios storage' = loadScenarios storage ++ [scenario] /\
  getDefaultScenarioId storage' = getDefaultScenarioId storage /\
  (forall other, other <> stampId stamp ->
     getScenario other storage' = getScenario other storage) /\
  (getScenario (stampId stamp) storage = None ->
   getScenario (stampId stamp) storage' = Some scenario).
Proof.
  cbn [createScenario fst snd].
  split; [reflexivity|]. split; [reflexivity|]. split; [reflexivity|].
  unfold getScenario. cbn [loadScenarios saveScenarios scenariosItem].
  split.
  - intros other Hother. rewrite findScenario_app.
    destruct (findScenario other _); [reflexivity|].
    unfold findScenario. cbn [find id].
    apply not_eq_sym, String.eqb_neq in Hother. now rewrite Hother.
  - intro Hfresh. rewrite findScenario_app.
    fold (loadScenarios storage). rewrite Hfresh.
    unfold findScenario. cbn [find id]. now rewrite String.eqb_refl.
Qed.

Lemma createScenario_then_get_witness :
  getScenario "scenario-1-a"
    (snd (createScenario stampOne "Test" Totals.DEFAULT_INPUTS emptyStorage))
  = Some (fst (createScenario stampOne "Test" Totals.DEFAULT_INPUTS
                 emptyStorage)).
Proof.
  destruct (createScenario_then_get stampOne "Test" Totals.DEFAULT_INPUTS
              emptyStorage) as (_ & _ & _ & _ & H).
  apply H. reflexivity.
Defined.

Lemma filter_length_all {A} (f : A -> bool) l :
  List.length (filter f l) = List.length l -> filter f l = l.
Proof.
  induction l as [|x l IH]; [reflexivity|].
  cbn [filter]. destruct (f x); cbn [List.length]; intro H.
  - f_equal. apply IH. lia.
  - pose proof (filter_length_le f l). lia.
Qed.

Lemma findScenario_filter_same wanted l :
  findScenario wanted
    (filter (fun s => negb (String.eqb (id s) wanted)) l) = None.
Proof.
  unfold findScenario. induction l as [|s l IH]; [reflexivity|].
  cbn [filter]. destruct (String.eqb (id s) wanted) eqn:E; cbn [negb];
    [exact IH|].
  cbn [find]. now rewrite E.
Qed.

Lemma findScenario_filter_other wanted other l :
  other <> wanted ->
  findScenario other
    (filter (fun s => negb (String.eqb (id s) wanted)) l)
  = findScenario other l.
Proof.
  intro Hne. unfold findScenario. induction l as [|s l IH]; [reflexivity|].
  cbn [filter find]. destruct (String.eqb (id s) wanted) eqn:E; cbn [negb].
  - apply String.eqb_eq in E.
    assert (E' : String.eqb (id s) other = false)
      by (apply String.eqb_neq; congruence).
    now rewrite E'.
  - cbn [find]. destruct (String.eqb (id s) other); [reflexivity|exact IH].
Qed.

Lemma filter_unchanged_find wanted l :
  filter (fun s => negb (String.eqb (id s) wanted)) l = l ->
  findScenario wanted l = None.
Proof.
  intro H. rewrite <- H. apply findScenario_filter_same.
Qed.

Lemma find_none_filter wanted l :
  findScenario wanted l = None ->
  filter (fun s => negb (String.eqb (id s) wanted)) l = l.
Proof.
  unfold findScenario. induction l as [|s l IH]; [reflexivity|].
  cbn [find filter]. destruct (String.eqb (id s) wanted); [discriminate|].
  cbn [negb]. intro H. f_equal. apply IH, H.
Qed.

(** Deleting.  The call answers whether a scenario with that id was
    stored.  If none was, nothing changes.  If one was, every scenario
    with that id is gone and the others are kept in order; the default
    is cleared if it was that id, and is otherwise what it was, set or
    not.  In both cases the id is not found afterwards and every other
    id is looked up as before. *)
Theorem deleteScenario_spec (wanted : string) (storage : LocalStorage) :
  let deleted := fst (deleteScenario wanted storage) in
  let storage' := snd (deleteScenario wanted storage) in
  (deleted = true <-> getScenario wanted storage <> None) /\
  (deleted = false -> storage' = storage) /\
  (deleted = true ->
   loadScenarios storage'
   = filter (fun s => negb (String.eqb (id s) wanted))
       (loadScenarios storage) /\
   (getDefaultScenarioId storage = Some wanted ->
    getDefaultScenarioId storage' = None) /\
   (getDefaultScenarioId storage <> Some wanted ->
    getDefaultScenarioId storage' = getDefaultScenarioId storage)) /\
  getScenario wanted storage' = None /\
  (forall other, other <> wanted ->
     getScenario other storage' = getScenario other storage).
Proof.
  unfold deleteScenario, getScenario.
  set (scenarios := loadScenarios storage).
  set (filtered := filter _ scenarios).
  destruct (List.length filtered =? List.length scenarios)%nat eqn:E.
  - apply Nat.eqb_eq in E. apply filter_length_all in E.
    pose proof (filter_unchanged_find wanted scenarios E) as Hnone.
    cbn [fst snd]. fold scenarios.
    split; [split; [discriminate | intro H; contradiction]|].
    split; [reflexivity|]. split; [discriminate|].
    split; [exact Hnone | reflexivity].
  - apply Nat.eqb_neq in E.
    assert (Hfound : findScenario wanted scenarios <> None).
    { intro H. apply find_none_filter in H. apply E.
      unfold filtered. now rewrite H. }
    assert (Hload : forall st,
              loadScenarios (saveScenarios filtered st) = filtered)
      by reflexivity.
    destruct (optionStringEqb _ wanted) eqn:Edef; cbn [fst snd].
    + split; [split; [intros _; exact Hfound | reflexivity]|].
      split; [discriminate|]. split.
      * intros _. split; [reflexivity|]. split; [reflexivity|].
        intro Hdef. exfalso. apply Hdef.
        unfold getDefaultScenarioId in *.
        cbn [saveScenarios defaultItem] in Edef.
        destruct (defaultItem storage) as [current|]; [|discriminate].
        cbn [optionStringEqb] in Edef. apply String.eqb_eq in Edef.
        now subst.
      * split; [apply findScenario_filter_same|].
        intros other Hne. apply findScenario_filter_other, Hne.
    + split; [split; [intros _; exact Hfound | reflexivity]|].
      split; [discriminate|]. split.
      * intros _. split; [reflexivity|]. split.
        -- unfold getDefaultScenarioId in *.
           cbn [saveScenarios defaultItem] in *.
           intro Hdef. rewrite Hdef in Edef. cbn [optionStringEqb] in Edef.
           rewrite String.eqb_refl in Edef. discriminate.
        -- intros _. reflexivity.
      * split; [apply findScenario_filter_same|].
        intros other Hne. apply findScenario_filter_other, Hne.
Qed.

Lemma deleteScenario_spec_witness :
  loadScenarios (snd (deleteScenario "scenario-1-a" storedDefault)) = [] /\
  getDefaultScenarioId (snd (deleteScenario "scenario-1-a" storedDefault))
  = None.
Proof.
  destruct (deleteScenario_spec "scenario-1-a" storedDefault)
    as (_ & _ & H & _).
  destruct (H eq_refl) as (Hload & Hdefault & _).
  split; [exact Hload | apply Hdefault; reflexivity].
Defined.

End StorageFacts.

Section StorageUpdates.
Import Finance Storage.

Lemma findIndex_find wanted l :
  match findIndex wanted l with
  | Some index =>
      exists s, nth_error l index = Some s /\ findScenario wanted l = Some s
  | None => findScenario wanted l = None
  end.
Proof.
  unfold findScenario. induction l as [|s l IH]; [reflexivity|].
  cbn [findIndex find]. destruct (String.eqb (id s) wanted).
  - exists s. split; reflexivity.
  - destruct (findIndex wanted l) as [index|]; cbn [option_map];
      [|exact IH].
    destruct IH as (s' & Hnth & Hfind). exists s'. split; assumption.
Qed.

Lemma setAt_length index value l :
  List.length (setAt index value l) = List.length l.
Proof.
  revert index. induction l as [|s l IH]; intros [|index]; cbn;
    try reflexivity. now rewrite IH.
Qed.

(** Replacing the first scenario with a given id by one with the same id
    changes what that id finds and nothing else. *)
Lemma findScenario_setAt wanted l : forall index old value,
  findIndex wanted l = Some index -> nth_error l index = Some old ->
  id value = wanted ->
  findScenario wanted (setAt index value l) = Some value /\
  (forall other, other <> wanted ->
     findScenario other (setAt index value l) = findScenario other l).
Proof.
  unfold findScenario. induction l as [|s l IH]; intros index old value Hi Hn Hid;
    [discriminate|].
  cbn [findIndex] in Hi. destruct (String.eqb (id s) wanted) eqn:E.
  - injection Hi as <-. cbn [setAt find]. rewrite Hid, String.eqb_refl.
    split; [reflexivity|]. intros other Hne.
    apply String.eqb_eq in E.
    assert (E1 : String.eqb wanted other = false)
      by (apply String.eqb_neq; congruence).
    assert (E2 : String.eqb (id s) other = false)
      by (apply String.eqb_neq; congruence).
    now rewrite E1, E2.
  - destruct (findIndex wanted l) as [index'|] eqn:Ei; [|discriminate].
    cbn [option_map] in Hi. injection Hi as <-.
    cbn [nth_error] in Hn. cbn [setAt find]. rewrite E.
    destruct (IH index' old value eq_refl Hn Hid) as [H1 H2].
    split; [exact H1|]. intros other Hne.
    destruct (String.eqb (id s) other); [reflexivity | apply H2, Hne].
Qed.

(** Updating.  An id that is not stored gives [null] and changes nothing.
    Otherwise the call returns the first scenario with that id with the
    name and the inputs replaced by those that are given, the others
    kept, a new update time, and its id and creation time as they were;
    that scenario is what the id finds afterwards, and the number of
    scenarios, every other lookup and the default stay as they were. *)
Theorem updateScenario_spec (now wanted : string) (updates : ScenarioUpdates)
    (storage : LocalStorage) :
  (getScenario wanted storage = None ->
   updateScenario now wanted updates storage = (None, storage)) /\
  (forall old, getScenario wanted storage = Some old ->
   let updated :=
     {| id := wanted;
        name := match newName updates with
                | Some given => given
                | None => name old
                end;
        inputs := match newInputs updates with
                  | Some given => given
                  | None => inputs old
                  end;
        createdAt := createdAt old;
        updatedAt := now |} in
   let storage' := snd (updateScenario now wanted updates storage) in
   fst (updateScenario now wanted updates storage) = Some updated /\
   getScenario wanted storage' = Some updated /\
   (forall other, other <> wanted ->
      getScenario other storage' = getScenario other storage) /\
   List.length (loadScenarios storage')
   = List.length (loadScenarios storage) /\
   getDefaultScenarioId storage' = getDefaultScenarioId storage).
Proof.
  unfold updateScenario, getScenario.
  pose proof (findIndex_find wanted (loadScenarios storage)) as H.
  destruct (findIndex wanted (loadScenarios storage)) as [index|] eqn:Ei.
  - destruct H as (s & Hnth & Hfind). rewrite Hnth, Hfind.
    split; [discriminate|].
    intros old Hold. injection Hold as <-.
    cbn [fst snd loadScenarios saveScenarios scenariosItem].
    pose proof (findScenario_id _ _ _ Hfind) as Hid.
    destruct (findScenario_setAt wanted (loadScenarios storage) index s
                (applyUpdates s updates now) Ei Hnth Hid) as [H1 H2].
    assert (Hupd : applyUpdates s updates now
                   = {| id := wanted;
                        name := match newName updates with
                                | Some given => given
                                | None => name s
                                end;
                        inputs := match newInputs updates with
                                  | Some given => given
                                  | None => inputs s
                                  end;
                        createdAt := createdAt s;
                        updatedAt := now |}).
    { unfold applyUpdates. now rewrite Hid. }
    rewrite Hupd in *.
    split; [reflexivity|]. split; [exact H1|]. split; [exact H2|].
    split; [apply setAt_length | reflexivity].
  - rewrite H. split; [reflexivity | discriminate].
Qed.

Lemma updateScenario_spec_witness :
  fst (updateScenario "2025-02-01T00:00:00.000Z" "scenario-1-a"
         {| newName := Some "Updated"%string; newInputs := None;
            newUpdatedAt := None |} storedDefault)
  = Some {| id := "scenario-1-a"; name := "Updated";
            inputs := Totals.DEFAULT_INPUTS_BASE;
            createdAt := "2025-01-01T00:00:00.000Z";
            updatedAt := "2025-02-01T00:00:00.000Z" |}.
Proof.
  destruct (updateScenario_spec "2025-02-01T00:00:00.000Z" "scenario-1-a"
              {| newName := Some "Updated"%string; newInputs := None;
                 newUpdatedAt := None |} storedDefault) as [_ H].
  destruct (H _ eq_refl) as [Hresult _]. exact Hresult.
Defined.

(** Duplicating.  An id that is not stored gives [null] and changes
    nothing.  Otherwise the copy has the inputs of the source and the
    given name, or the name of the source followed by " (copy)" when no
    name or an empty one is given; it is appended to the list, and the
    source is still what its id finds. *)
Theorem duplicateScenario_spec (stamp : Stamp) (wanted : string)
    (copyName : option string) (storage : LocalStorage) :
  (getScenario wanted storage = None ->
   duplicateScenario stamp wanted copyName storage = (None, storage)) /\
  (forall source, getScenario wanted storage = Some source ->
   exists duplicate,
     fst (duplicateScenario stamp wanted copyName storage) = Some duplicate
     /\
     inputs duplicate = inputs source /\ id duplicate = stampId stamp /\
     name duplicate
     = match copyName with
       | Some n => if String.eqb n "" then (name source ++ " (copy)")%string
                   else n
       | None => (name source ++ " (copy)")%string
       end /\
     loadScenarios (snd (duplicateScenario stamp wanted copyName storage))
     = loadScenarios storage ++ [duplicate] /\
     getScenario wanted
       (snd (duplicateScenario stamp wanted copyName storage))
     = Some source).
Proof.
  unfold duplicateScenario, getScenario.
  destruct (findScenario wanted (loadScenarios storage)) as [s|] eqn:E.
  - split; [discriminate|]. intros source Hs. injection Hs as <-.
    cbn [createScenario fst snd]. eexists.
    split; [reflexivity|].
    cbn [inputs id name loadScenarios saveScenarios scenariosItem].
    repeat split.
    rewrite findScenario_app. fold (loadScenarios storage). now rewrite E.
  - split; [reflexivity | discriminate].
Qed.

Lemma duplicateScenario_spec_witness :
  exists duplicate,
    fst (duplicateScenario stampTwo "scenario-1-a" (Some ""%string)
           (snd (createScenario stampOne "Test" Totals.DEFAULT_INPUTS
                   emptyStorage)))
    = Some duplicate /\
    name duplicate = "Test (copy)"%string.
Proof.
  destruct (duplicateScenario_spec stampTwo "scenario-1-a" (Some ""%string)
              (snd (createScenario stampOne "Test" Totals.DEFAULT_INPUTS
                      emptyStorage))) as [_ H].
  destruct (H (fst (createScenario stampOne "Test" Totals.DEFAULT_INPUTS
                      emptyStorage)) eq_refl)
    as (duplicate & Hrun & _ & _ & Hname & _).
  exists duplicate. split; [exact Hrun | exact Hname].
Defined.

(** Initialising.  On a storage without scenarios the call stores one
    scenario, named "Default Plan" and holding the default inputs, and
    makes it the default, which [getDefaultScenario] then returns when
    the generated id is not empty.  On a storage with scenarios it
    returns [null] and changes nothing. *)
Theorem initializeDefaultScenario_spec (stamp : Stamp)
    (storage : LocalStorage) :
  (loadScenarios storage = [] ->
   exists scenario,
     fst (initializeDefaultScenario stamp storage) = Some scenario /\
     name scenario = "Default Plan"%string /\
     inputs scenario = Totals.DEFAULT_INPUTS /\
     loadScenarios (snd (initializeDefaultScenario stamp storage))
     = [scenario] /\
     getDefaultScenarioId (snd (initializeDefaultScenario stamp storage))
     = Some (id scenario) /\
     (stampId stamp <> ""%string ->
      getDefaultScenario (snd (initializeDefaultScenario stamp storage))
      = Some scenario)) /\
  (loadScenarios storage <> [] ->
   initializeDefaultScenario stamp storage = (None, storage)).
Proof.
  unfold initializeDefaultScenario.
  destruct (loadScenarios storage) as [|s l] eqn:E.
  - split; [intros _|intro H; contradiction].
    cbn [createScenario fst snd]. rewrite E. eexists.
    split; [reflexivity|].
    cbn [name inputs id loadScenarios saveScenarios setDefaultScenario
         scenariosItem app].
    repeat split.
    intro Hid. unfold getDefaultScenario, getDefaultScenarioId, getScenario.
    cbn [setDefaultScenario defaultItem loadScenarios scenariosItem
         saveScenarios].
    apply String.eqb_neq in Hid. rewrite Hid.
    unfold findScenario. cbn [find id]. now rewrite String.eqb_refl.
  - split; [discriminate | reflexivity].
Qed.

Lemma initializeDefaultScenario_spec_witness :
  exists scenario,
    fst (initializeDefaultScenario stampOne emptyStorage) = Some scenario /\
    getDefaultScenario (snd (initializeDefaultScenario stampOne emptyStorage))
    = Some scenario.
Proof.
  destruct (initializeDefaultScenario_spec stampOne emptyStorage) as [H _].
  destruct (H eq_refl) as (scenario & Hrun & _ & _ & _ & _ & Hdefault).
  exists scenario. split; [exact Hrun|]. apply Hdefault. discriminate.
Defined.

End StorageUpdates.

Section StorageImport.
Import Finance Storage.

Lemma withNewIds_valid stamps entries : forall position,
  forallb validEntry entries = true ->
  List.length (withNewIds stamps position entries) = List.length entries /\
  map (fun s => Some (name s)) (withNewIds stamps position entries)
  = map entryName entries /\
  map (fun s => Some (inputs s)) (withNewIds stamps position entries)
  = map entryInputs entries /\
  map id (withNewIds stamps position entries)
  = map (fun k => stampId (stamps k)) (seq position (List.length entries)).
Proof.
  induction entries as [|entry entries IH]; intros position Hvalid.
  - repeat split.
  - cbn [forallb] in Hvalid. apply andb_true_iff in Hvalid.
    destruct Hvalid as [Hentry Hrest].
    unfold validEntry in Hentry.
    destruct entry as [[i|] [n|] [inp|]]; cbn in Hentry; try discriminate.
    cbn [withNewIds entryName entryInputs List.length map seq name inputs id].
    destruct (IH (S position) Hrest) as (H1 & H2 & H3 & H4).
    rewrite H1, H2, H3, H4. repeat split.
Qed.

Lemma importScenarios_aux stamps merge storage entries :
  forallb validEntry entries = true ->
  exists fresh,
    importScenarios stamps (Entries entries) merge storage
    = (Some (List.length entries),
       saveScenarios
         ((if merge then loadScenarios storage else []) ++ fresh) storage) /\
    map (fun s => Some (name s)) fresh = map entryName entries /\
    map (fun s => Some (inputs s)) fresh = map entryInputs entries.
Proof.
  intro H. cbn [importScenarios]. rewrite H.
  destruct (withNewIds_valid stamps entries 0 H) as (H1 & H2 & H3 & _).
  exists (withNewIds stamps 0 entries). rewrite H1.
  repeat split; assumption.
Qed.

(** Importing.  A text that does not parse, that is not an array, or
    that has an entry without an id, a name or inputs (or with an empty
    id or name) is refused and the storage is left as it was.  Otherwise
    all entries are stored after the existing scenarios when merging, or
    in their place when not; they keep their names and inputs and their
    order, and each gets a newly generated id in place of its own. *)
Theorem importScenarios_spec (stamps : nat -> Stamp) (merge : bool)
    (storage : LocalStorage) :
  importScenarios stamps BadJson merge storage = (None, storage) /\
  importScenarios stamps NotAnArray merge storage = (None, storage) /\
  (forall entries,
     forallb validEntry entries = false ->
     importScenarios stamps (Entries entries) merge storage
     = (None, storage)) /\
  (forall entries,
     forallb validEntry entries = true ->
     exists fresh,
       importScenarios stamps (Entries entries) merge storage
       = (Some (List.length entries),
          saveScenarios
            ((if merge then loadScenarios storage else []) ++ fresh)
            storage) /\
       map (fun s => Some (name s)) fresh = map entryName entries /\
       map (fun s => Some (inputs s)) fresh = map entryInputs entries /\
       map id fresh
       = map (fun k => stampId (stamps k)) (seq 0 (List.length entries))).
Proof.
  split; [reflexivity|]. split; [reflexivity|]. split.
  - intros entries H. cbn [importScenarios]. now rewrite H.
  - intros entries H. cbn [importScenarios]. rewrite H.
    destruct (withNewIds_valid stamps entries 0 H) as (H1 & H2 & H3 & H4).
    exists (withNewIds stamps 0 entries). rewrite H1.
    repeat split; assumption.
Qed.

Lemma importScenarios_spec_witness :
  importScenarios (fun _ => stampOne)
    (Entries [{| entryId := Some "x"%string; entryName := Some ""%string;
                 entryInputs := Some Totals.DEFAULT_INPUTS_BASE |}])
    true emptyStorage
  = (None, emptyStorage).
Proof.
  destruct (importScenarios_spec (fun _ => stampOne) true emptyStorage)
    as (_ & _ & H & _).
  apply H. reflexivity.
Defined.

Lemma exported_valid scenarios :
  Forall (fun s => id s <> ""%string /\ name s <> ""%string) scenarios ->
  forallb validEntry
    (map (fun s => {| entryId := Some (id s); entryName := Some (name s);
                      entryInputs := Some (inputs s) |}) scenarios) = true.
Proof.
  induction 1 as [|s l [Hid Hname] Hl IH]; [reflexivity|].
  cbn [map forallb]. rewrite IH, andb_true_r.
  unfold validEntry. cbn [entryId entryName entryInputs].
  apply String.eqb_neq in Hid, Hname. now rewrite Hid, Hname.
Qed.

Lemma Some_map_inj {A B} (f g : A -> B) l1 l2 :
  map (fun x => Some (f x)) l1 = map (fun x => Some (g x)) l2 ->
  map f l1 = map g l2.
Proof.
  revert l2. induction l1 as [|x l1 IH]; intros [|y l2] H;
    cbn in *; try discriminate; [reflexivity|].
  injection H as Hx Hl. f_equal; [exact Hx | apply IH, Hl].
Qed.

(** Export then import.  When every stored scenario has an id and a name
    that are not empty, importing the export in place of the list gives
    the same scenarios in the same order, as far as their names and
    inputs go.  A stored scenario with an empty name makes the export
    one that the import refuses. *)
Theorem export_import_round_trip (stamps : nat -> Stamp)
    (storage : LocalStorage) :
  (Forall (fun s => id s <> ""%string /\ name s <> ""%string)
     (loadScenarios storage) ->
   let result := importScenarios stamps (exportScenarios storage) false
                   storage in
   fst result = Some (List.length (loadScenarios storage)) /\
   map name (loadScenarios (snd result)) = map name (loadScenarios storage)
   /\
   map inputs (loadScenarios (snd result))
   = map inputs (loadScenarios storage)) /\
  (Exists (fun s => name s = ""%string) (loadScenarios storage) ->
   importScenarios stamps (exportScenarios storage) false storage
   = (None, storage)).
Proof.
  unfold exportScenarios. split.
  - intros Hvalid. cbv zeta.
    pose proof (exported_valid _ Hvalid) as Hv.
    destruct (importScenarios_aux stamps false storage _ Hv)
      as (fresh & Hrun & Hn & Hi).
    rewrite Hrun. cbn [fst snd loadScenarios saveScenarios scenariosItem app].
    rewrite length_map. split; [reflexivity|].
    rewrite !map_map in Hn, Hi. cbn [entryName entryInputs] in Hn, Hi.
    split; apply Some_map_inj; assumption.
  - intro Hex. cbn [importScenarios].
    assert (E : forallb validEntry
                  (map (fun s => {| entryId := Some (id s);
                                    entryName := Some (name s);
                                    entryInputs := Some (inputs s) |})
                     (loadScenarios storage)) = false).
    { induction Hex as [s l Hs|s l Hl IH]; cbn [map forallb].
      - unfold validEntry at 1. cbn [entryId entryName entryInputs].
        rewrite Hs. cbn. now rewrite andb_false_r.
      - rewrite IH. apply andb_false_r. }
    now rewrite E.
Qed.

Lemma export_import_round_trip_witness :
  let storage :=
    snd (createScenario stampOne "Test" Totals.DEFAULT_INPUTS_BASE
           emptyStorage) in
  map name
    (loadScenarios
       (snd (importScenarios (fun _ => stampTwo) (exportScenarios storage)
               false storage)))
  = map name (loadScenarios storage).
Proof.
  intro storage.
  destruct (export_import_round_trip (fun _ => stampTwo) storage) as [H _].
  apply H. repeat constructor; discriminate.
Defined.

End StorageImport.

Section NeverReturns.
Import Sensitivity.

(** With a step that is not positive, and the bounds that it sweeps in
    order, the generator never returns: no amount of fuel gives a grid. *)
Theorem generateSensitivityGrid_never_returns (config : SensitivityConfig Q)
    (bankTermYears : Z) (familyMonthly netIncomeMonthly : Q) :
  minAmount config <= maxAmount config ->
  stepAmount config <= 0
  \/ (stepRate config <= 0 /\ minRate config <= maxRate config) ->
  forall fuel,
    generateSensitivityGridQ config bankTermYears familyMonthly
      netIncomeMonthly fuel = None.
Proof.
  intros HA Hbad fuel.
  unfold generateSensitivityGridQ, generateSensitivityGrid.
  apply amountLoopQ_diverges; [exact HA | exact Hbad].
Qed.

Lemma generateSensitivityGrid_never_returns_witness :
  generateSensitivityGridQ zeroStepConfig 25 1000 10000 1000 = None.
Proof.
  apply (generateSensitivityGrid_never_returns zeroStepConfig 25 1000 10000);
    [discriminate | left; discriminate].
Defined.

End NeverReturns.
